(** * Insight sampling scripts: a shallow embedding and its properties

    The development follows [scripts/extract_all_datasets.py] and
    [scripts/extract_interactive_data.py].

    Python values are embedded as follows: an [int] is a [Z]; a [float]
    score is a rational [Q] (every finite float is one, and [<] on floats is
    [<] on their values; NaN keys are outside the model); a [list] is a
    [list]; a parsed JSON document is a [json]; an exception is the [Raise]
    branch of [result].

    The sampler is a function on values.  The loader and [process_dataset]
    are steps on a [World] (directory listings, directories, files, printed
    lines).  To speak of what a call leaves untouched, the sampler is also
    given over a store of objects, and related to the function on values. *)

From Stdlib Require Import ZArith QArith Lia Strings.Ascii Strings.String.
From Stdlib Require Import Sorting.Sorted Sorting.Permutation.
From stdpp Require Import gmap strings list fin_maps sorting pretty.

Local Open Scope Z_scope.

(** ** Exceptions and the error monad *)

Inductive exn : Type :=
  | ValueError
  | IndexError
  | TypeError
  | AttributeError
  | FileNotFoundError
  | FileExistsError
  | IsADirectoryError
  | JSONDecodeError.

Inductive result (A : Type) : Type :=
  | Ok (a : A)
  | Raise (e : exn).
Arguments Ok {A} a.
Arguments Raise {A} e.

Global Instance result_ret : MRet result := fun A a => Ok a.
Global Instance result_bind : MBind result := fun A B f m =>
  match m with
  | Ok a => f a
  | Raise e => Raise e
  end.

Global Instance result_fmap : FMap result := fun A B f m =>
  match m with
  | Ok a => Ok (f a)
  | Raise e => Raise e
  end.

Definition is_ok {A} (r : result A) : bool :=
  match r with Ok _ => true | Raise _ => false end.

(** ** Python built-ins used by the sampler *)

(** [l[i]]: a negative index counts from the end, an index outside
    [-len, len) raises [IndexError]. *)
Definition py_index {A} (l : list A) (i : Z) : result A :=
  let n := Z.of_nat (length l) in
  let j := if i <? 0 then i + n else i in
  if (j <? 0) || (n <=? j) then Raise IndexError
  else match l !! Z.to_nat j with
       | Some x => Ok x
       | None => Raise IndexError
       end.

(** Number of items of [range(start, stop, step)] for [step <> 0]. *)
Definition range_length (start stop step : Z) : Z :=
  let '(lo, hi, st) :=
    if 0 <? step then (start, stop, step) else (stop, start, - step) in
  if hi <=? lo then 0 else (hi - lo - 1) / st + 1.

(** The items of [range(start, stop, step)] for [step <> 0]. *)
Definition range_items (start stop step : Z) : list Z :=
  (fun k => start + k * step) <$> seqZ 0 (range_length start stop step).

(** [range(start, stop, step)]: [ValueError] on a zero step. *)
Definition py_range (start stop step : Z) : result (list Z) :=
  if step =? 0 then Raise ValueError
  else Ok (range_items start stop step).

(** [sorted(l, key=key)]: a stable sort by [<] on the keys.  Inserting from
    the right, each element goes in front of the first element whose key is
    not smaller, so equal keys keep their encounter order. *)
Section Sorted.
Context {A K : Type} (ltb : K -> K -> bool) (key : A -> K).

Fixpoint insert_stable (x : A) (l : list A) : list A :=
  match l with
  | [] => [x]
  | y :: l' => if ltb (key y) (key x) then y :: insert_stable x l' else x :: l
  end.

Fixpoint py_sorted (l : list A) : list A :=
  match l with
  | [] => []
  | x :: l' => insert_stable x (py_sorted l')
  end.

(** [x] may stand before [y] in a sorted list: [key y < key x] is false. *)
Definition key_le (x y : A) : Prop := ltb (key y) (key x) = false.

(** The key of [x] is neither below nor above [k]. *)
Definition key_equiv (k : K) (x : A) : bool :=
  negb (ltb (key x) k) && negb (ltb k (key x)).
End Sorted.

(** A [for] loop whose body may raise, threading the loop state. *)
Fixpoint for_each {I S} (body : I -> S -> result S) (items : list I) (s : S)
  : result S :=
  match items with
  | [] => Ok s
  | i :: items' => s' ← body i s; for_each body items' s'
  end.

(** ** Data model *)

(** A parsed JSON value; numbers are rationals. *)
#[local] Set Warnings "-register-all".
Inductive json : Type :=
  | JNull
  | JBool (b : bool)
  | JNum (q : Q)
  | JStr (s : string)
  | JArr (items : list json)
  | JObj (fields : list (string * json)).

(** The dictionary built by [load_all_insights] for one insight. *)
Record Insight : Type := mkInsight {
  score : Q;
  insight : json;
  img_path : string;
  run_name : string;
  original_path : string
}.

(** [<] on float scores. *)
Definition Qltb (x y : Q) : bool := negb (Qle_bool y x).


(** [sorted(insights, key=lambda x: x["score"])] *)
Definition sorted_by_score (insights : list Insight) : list Insight :=
  py_sorted Qltb score insights.

(** ** The sampler *)

(** Body of the stride loop: [sampled.append(sorted_insights[i])],
    [indices.append(i)]. *)
Definition sample_step (sorted_insights : list Insight) (i : Z)
    (st : list Insight * list Z) : result (list Insight * list Z) :=
  let '(sampled, indices) := st in
  x ← py_index sorted_insights i;
  Ok (sampled ++ [x], indices ++ [i]).

(** ** The indices as the specification words them *)



(** ** Paths, dictionaries and float operations *)

Definition ends_with_slash (p : string) : bool :=
  match String.get (String.length p - 1)%nat p with
  | Some c => Ascii.eqb c "/"%char
  | None => false
  end.

(** [os.path.join(a, b)] on POSIX. *)
Definition path_join (a b : string) : string :=
  if String.prefix "/" b then b
  else if String.eqb a "" || ends_with_slash a then a +:+ b
  else a +:+ "/" +:+ b.

Fixpoint has_slash (p : string) : bool :=
  match p with
  | EmptyString => false
  | String c p' => Ascii.eqb c "/"%char || has_slash p'
  end.

(** [os.path.basename(p)]: what follows the last slash. *)
Fixpoint basename (p : string) : string :=
  match p with
  | EmptyString => EmptyString
  | String c p' =>
      if has_slash p' then basename p'
      else if Ascii.eqb c "/"%char then p' else p
  end.

(** The value stored under [key] in a dictionary, keys in insertion order. *)
Fixpoint assoc {V} (key : string) (fields : list (string * V)) : option V :=
  match fields with
  | [] => None
  | (k, v) :: fields' => if String.eqb k key then Some v else assoc key fields'
  end.

(** [d.get(key, default)]; [None] is [JNull].  Only a dict has [get]. *)
Definition dict_get (key : string) (default : json) (d : json) : result json :=
  match d with
  | JObj fields => Ok (from_option id default (assoc key fields))
  | _ => Raise AttributeError
  end.

(** [v is None] *)
Definition is_none (v : json) : bool :=
  match v with JNull => true | _ => false end.

(** [d.items()] *)
Definition py_items (d : json) : result (list (string * json)) :=
  match d with
  | JObj fields => Ok fields
  | _ => Raise AttributeError
  end.

Fixpoint chars (s : string) : list json :=
  match s with
  | EmptyString => []
  | String c s' => JStr (String c EmptyString) :: chars s'
  end.

(** The items a [for] loop over [v] visits: the elements of a list, the
    characters of a string, the keys of a dict; other values are not
    iterable. *)
Definition py_iter (v : json) : result (list json) :=
  match v with
  | JArr items => Ok items
  | JStr s => Ok (chars s)
  | JObj fields => Ok ((fun kv => JStr kv.1) <$> fields)
  | _ => Raise TypeError
  end.

(** Float operations of the interpreter that round, and the parser of
    [float(str)]; the scripts only call them. *)
Class FloatOps : Type := {
  str_to_float : string -> option Q;
  float_add : Q -> Q -> Q;
  float_div : Q -> Q -> Q;
  round2 : Q -> Q
}.

(** [float(v)]: a number converts (numbers are taken within the range of
    floats), a boolean gives 0 or 1, a string is parsed, anything else is a
    [TypeError]. *)
Definition py_float `{FloatOps} (v : json) : result Q :=
  match v with
  | JNum q => Ok q
  | JBool b => Ok (if b then 1 else 0)%Q
  | JStr s => match str_to_float s with
              | Some q => Ok q
              | None => Raise ValueError
              end
  | _ => Raise TypeError
  end.

(** A loop whose state survives an exception raised by its body, as the
    appends to [all_insights] survive inside [try]. *)
Fixpoint for_each_st {I S} (body : I -> S -> S * option exn)
    (items : list I) (s : S) : S * option exn :=
  match items with
  | [] => (s, None)
  | i :: items' =>
      match body i s with
      | (s', None) => for_each_st body items' s'
      | (s', Some e) => (s', Some e)
      end
  end.

(** ** Output documents, the file system and the console *)

Record CurveData : Type := mkCurve {
  curve_scores : list Q;
  curve_total_count : Z;
  curve_avg_score : Q;
  curve_min_score : Q;
  curve_max_score : Q
}.

Record SampleData : Type := mkSample {
  sample_index : Z;
  sample_score : Q;
  sample_insight : json;
  sample_img_url : string;
  sample_run_name : string
}.

Record OutputData : Type := mkOutput {
  out_dataset : string;
  out_display_name : string;
  out_curve : CurveData;
  out_samples : list SampleData;
  out_interval : Z
}.

Inductive file_content : Type :=
  | FImage (bytes : string)
  | FJson (doc : OutputData).

(** What the script sees of one name listed in the runs directory. *)
Record DirEntry : Type := mkEntry {
  entry_name : string;
  entry_isdir : bool;
  entry_has_error_json : bool;
  (** [None]: no [insights_validated.json]; otherwise what
      [open] and [json.load] give. *)
  entry_insights : option (result json)
}.

(** The printed lines. *)
Inductive log_line : Type :=
  | LogBanner
  | LogProcessing (display_name key : string)
  | LogLoading (runs_root : string)
  | LogTotal (n : Z)
  | LogErrorNoInsights (key : string)
  | LogSampled (n interval : Z)
  | LogWarnImage (path : string)
  | LogWarnRead (path : string) (e : exn)
  | LogSaved (path : string)
  | LogStats (total : Z) (avg : Q) (sampled : Z)
  | LogText (s : string).

Record World : Type := mkWorld {
  (** [os.listdir] with what each listed name holds; only read. *)
  w_listdir : string -> result (list DirEntry);
  w_dirs : gset string;
  w_files : gmap string file_content;
  w_stdout : list log_line
}.

(** A script step: it may raise, and changes the world either way. *)
Definition prog (A : Type) : Type := World -> result A * World.

Global Instance prog_ret : MRet prog := fun A a w => (Ok a, w).
Global Instance prog_bind : MBind prog := fun A B f m w =>
  match m w with
  | (Ok a, w') => f a w'
  | (Raise e, w') => (Raise e, w')
  end.

Definition lift_result {A} (r : result A) : prog A := fun w => (r, w).

(** The world after some more lines are printed. *)
Definition log_to (lines : list log_line) (w : World) : World :=
  mkWorld (w_listdir w) (w_dirs w) (w_files w) (w_stdout w ++ lines).

Definition print (l : log_line) : prog unit := fun w => (Ok tt, log_to [l] w).

Definition listdir (path : string) : prog (list DirEntry) := fun w =>
  (w_listdir w path, w).

(** [os.path.exists(path)] *)
Definition path_exists (path : string) : prog bool := fun w =>
  (Ok (bool_decide (path ∈ w_dirs w)
       || bool_decide (is_Some (w_files w !! path))), w).

(** The directory [p] and the directories above it. *)
Fixpoint dir_chain (seen p : string) : list string :=
  match p with
  | EmptyString => if String.eqb seen "" then [] else [seen]
  | String c p' =>
      if Ascii.eqb c "/"%char then
        (if String.eqb seen "" then [] else [seen])
          ++ dir_chain (seen +:+ "/") p'
      else dir_chain (seen +:+ String c EmptyString) p'
  end.

(** [os.makedirs(path, exist_ok=True)] *)
Definition makedirs (path : string) : prog unit := fun w =>
  if bool_decide (is_Some (w_files w !! path)) then (Raise FileExistsError, w)
  else (Ok tt, mkWorld (w_listdir w) (w_dirs w ∪ list_to_set (dir_chain "" path))
                 (w_files w) (w_stdout w)).

(** [shutil.copy2(src, dst)]: into [dst] when it is a directory. *)
Definition copy2 (src dst : string) : prog unit := fun w =>
  match w_files w !! src with
  | Some c =>
      let target :=
        if bool_decide (dst ∈ w_dirs w) then path_join dst (basename src)
        else dst in
      (Ok tt, mkWorld (w_listdir w) (w_dirs w) (<[target:=c]> (w_files w))
                (w_stdout w))
  | None =>
      if bool_decide (src ∈ w_dirs w) then (Raise IsADirectoryError, w)
      else (Raise FileNotFoundError, w)
  end.

(** [with open(path, "w") as f: json.dump(doc, f)] *)
Definition write_json (path : string) (doc : OutputData) : prog unit := fun w =>
  if bool_decide (path ∈ w_dirs w) then (Raise IsADirectoryError, w)
  else (Ok tt, mkWorld (w_listdir w) (w_dirs w)
                 (<[path:=FJson doc]> (w_files w)) (w_stdout w)).

(** A [for] loop of script steps, threading the loop state. *)
Fixpoint for_each_prog {I S} (body : I -> S -> prog S) (items : list I) (s : S)
  : prog S :=
  match items with
  | [] => mret s
  | i :: items' => s' ← body i s; for_each_prog body items' s'
  end.
(* ================================================================= *)
(** * scripts/extract_all_datasets.py *)

Module ExtractAllDatasets.

Record DatasetConfig : Type := mkConfig {
  cfg_runs_path : string;
  cfg_display_name : string;
  cfg_interval : Z
}.

Definition DATASETS : list (string * DatasetConfig) :=
  [ ("diabetes",
     mkConfig "/home/shuyu/projects/insight_scaling/ablation/new_prompt/diabetes/baseline/diabetes.csv_20251222-024828/runs"
       "Diabetes" 10);
    ("education",
     mkConfig "/home/shuyu/projects/insight_scaling/ablation/new_prompt/Education/baseline/Education.csv_20251222-034020/runs"
       "Education" 10);
    ("happiness",
     mkConfig "/home/shuyu/projects/insight_scaling/ablation/new_prompt/Happiness/baseline/Happiness.csv_20251222-051331/runs"
       "World Happiness" 10);
    ("insurance",
     mkConfig "/home/shuyu/projects/insight_scaling/ablation/new_prompt/Insurance/baseline/Insurance.csv_20251222-015937/runs"
       "Medical Insurance" 10);
    ("shopping",
     mkConfig "/home/shuyu/projects/insight_scaling/ablation/new_prompt/shopping/baseline/shopping.csv_20251222-043132/runs"
       "Shopping Behavior" 10) ].

Definition OUTPUT_BASE : string := "/home/shuyu/projects/insight-scaling-webpage".

Section Script.
Context `{FloatOps}.

(** The body of [for ins in ins_list]: nothing is appended when
    [avg_scores] is missing or null, or when a step raises. *)
Definition load_insight (run_dir run_name img_path : string) (ins : json)
    (all_insights : list Insight) : list Insight * option exn :=
  match
    score ← dict_get "avg_scores" JNull ins;
    insight_text ← dict_get "insight" (JStr "") ins;
    if negb (is_none score) then
      let img_filename := basename img_path in
      let verified_dir := path_join (path_join run_dir "viz") "verified" in
      let actual_img_path := path_join verified_dir img_filename in
      s ← py_float score;
      Ok (all_insights
            ++ [mkInsight s insight_text actual_img_path run_name img_path])
    else Ok all_insights
  with
  | Ok all_insights' => (all_insights', None)
  | Raise e => (all_insights, Some e)
  end.

(** The body of [for img_path, ins_list in data.items()]. *)
Definition load_item (run_dir run_name : string) (item : string * json)
    (all_insights : list Insight) : list Insight * option exn :=
  let '(img_path, ins_list) := item in
  match py_iter ins_list with
  | Ok entries =>
      for_each_st (load_insight run_dir run_name img_path) entries all_insights
  | Raise e => (all_insights, Some e)
  end.

(** The body of [try]: the file is opened and parsed, then walked. *)
Definition load_file (run_dir run_name : string) (file : result json)
    (all_insights : list Insight) : list Insight * option exn :=
  match data ← file; py_items data with
  | Ok items => for_each_st (load_item run_dir run_name) items all_insights
  | Raise e => (all_insights, Some e)
  end.

(** The body of [for run_name in sorted(os.listdir(runs_root))]. *)
Definition load_run (runs_root : string) (e : DirEntry)
    (all_insights : list Insight) : prog (list Insight) :=
  let run_name := entry_name e in
  let run_dir := path_join runs_root run_name in
  if negb (entry_isdir e) || negb (String.prefix "run_" run_name) then
    mret all_insights
  else if entry_has_error_json e then mret all_insights
  else
    let insight_path := path_join run_dir "insights_validated.json" in
    match entry_insights e with
    | None => mret all_insights
    | Some file =>
        let '(all_insights', raised) :=
          load_file run_dir run_name file all_insights in
        match raised with
        | None => mret all_insights'
        | Some ex => print (LogWarnRead insight_path ex);; mret all_insights'
        end
    end.

Definition load_all_insights (runs_root : string) : prog (list Insight) :=
  entries ← listdir runs_root;
  for_each_prog (load_run runs_root)
    (py_sorted String.ltb entry_name entries) [].

Definition default_interval : Z := 10.

Definition sample_insights (insights : list Insight) (interval : Z)
  : result (list Insight * list Z) :=
  let sorted_insights := sorted_by_score insights in
  let n := Z.of_nat (length sorted_insights) in
  if n =? 0 then Ok ([], [])
  else if n =? 1 then
    x ← py_index sorted_insights 0; Ok ([x], [0])
  else
    x0 ← py_index sorted_insights 0;
    let last_idx := n - 1 in
    r ← py_range interval last_idx interval;
    '(sampled, indices) ← for_each (sample_step sorted_insights) r ([x0], [0]);
    xl ← py_index sorted_insights (-1);
    Ok (sampled ++ [xl], indices ++ [last_idx]).

(** [sum(all_scores) / len(all_scores) if all_scores else 0] *)
Definition avg_score (all_scores : list Q) : Q :=
  match all_scores with
  | [] => 0%Q
  | _ => float_div (fold_left float_add all_scores 0%Q)
           (inject_Z (Z.of_nat (length all_scores)))
  end.

(** [min(all_scores) if all_scores else 0] *)
Definition min_score (all_scores : list Q) : Q :=
  match all_scores with
  | [] => 0%Q
  | x :: rest => fold_left (fun m y => if Qltb y m then y else m) rest x
  end.

(** [max(all_scores) if all_scores else 0] *)
Definition max_score (all_scores : list Q) : Q :=
  match all_scores with
  | [] => 0%Q
  | x :: rest => fold_left (fun m y => if Qltb m y then y else m) rest x
  end.

(** The body of [for i, (ins, idx) in enumerate(zip(sampled, sampled_indices))]. *)
Definition emit_sample (dataset_key img_output_dir : string)
    (item : nat * (Insight * Z)) (sampled_data : list SampleData)
  : prog (list SampleData) :=
  let '(i, (ins, idx)) := item in
  let img_filename := "sample_" +:+ pretty i +:+ ".png" in
  let dest_path := path_join img_output_dir img_filename in
  found ← path_exists (img_path ins);
  (if found : bool then copy2 (img_path ins) dest_path
   else print (LogWarnImage (img_path ins)));;
  mret (sampled_data
          ++ [mkSample idx (round2 (score ins)) (insight ins)
                ("img/interactive_" +:+ dataset_key +:+ "/sample_"
                   +:+ pretty i +:+ ".png")
                (run_name ins)]).

Definition process_dataset (dataset_key : string) (config : DatasetConfig)
  : prog unit :=
  print LogBanner;;
  print (LogProcessing (cfg_display_name config) dataset_key);;
  print LogBanner;;
  let runs_root := cfg_runs_path config in
  let interval := cfg_interval config in
  let output_dir := path_join OUTPUT_BASE "data" in
  let img_output_dir :=
    path_join OUTPUT_BASE ("img/interactive_" +:+ dataset_key) in
  makedirs output_dir;;
  makedirs img_output_dir;;
  print (LogLoading runs_root);;
  all_insights ← load_all_insights runs_root;
  print (LogTotal (Z.of_nat (length all_insights)));;
  if Z.of_nat (length all_insights) =? 0 then
    print (LogErrorNoInsights dataset_key)
  else
    let sorted_insights := sorted_by_score all_insights in
    let all_scores := score <$> sorted_insights in
    '(sampled, sampled_indices) ←
      lift_result (sample_insights all_insights interval);
    print (LogSampled (Z.of_nat (length sampled)) interval);;
    let curve_data :=
      mkCurve all_scores (Z.of_nat (length all_scores))
        (avg_score all_scores) (min_score all_scores) (max_score all_scores) in
    sampled_data ←
      for_each_prog (emit_sample dataset_key img_output_dir)
        (imap (fun i x => (i, x)) (zip sampled sampled_indices)) [];
    let output_data :=
      mkOutput dataset_key (cfg_display_name config) curve_data sampled_data
        interval in
    let output_path :=
      path_join output_dir ("interactive_" +:+ dataset_key +:+ ".json") in
    write_json output_path output_data;;
    print (LogSaved output_path);;
    print (LogStats (curve_total_count curve_data) (curve_avg_score curve_data)
             (Z.of_nat (length sampled_data))).

Definition main : prog unit :=
  print (LogText "Extracting interactive data for all datasets...");;
  for_each_prog (fun '(dataset_key, config) _ =>
                   process_dataset dataset_key config) DATASETS tt;;
  print LogBanner;;
  print (LogText "All datasets processed!");;
  print LogBanner.

End Script.

End ExtractAllDatasets.

(* ================================================================= *)
(** * scripts/extract_interactive_data.py *)

Module ExtractInteractiveData.

Definition default_interval : Z := 20.

Definition sample_insights (insights : list Insight) (interval : Z)
  : result (list Insight * list Z) :=
  let sorted_insights := sorted_by_score insights in
  let n := Z.of_nat (length sorted_insights) in
  if n =? 0 then Ok ([], [])
  else if n =? 1 then
    x ← py_index sorted_insights 0; Ok ([x], [0])
  else
    x0 ← py_index sorted_insights 0;
    let last_idx := n - 1 in
    r ← py_range interval last_idx interval;
    '(sampled, indices) ← for_each (sample_step sorted_insights) r ([x0], [0]);
    xl ← py_index sorted_insights (-1);
    Ok (sampled ++ [xl], indices ++ [last_idx]).

End ExtractInteractiveData.


(** ** The loaded record set as the specification words it *)

(** The [avg_scores] field is present and not null. *)
Definition has_score (ins : json) : bool :=
  match ins with
  | JObj fields =>
      match assoc "avg_scores" fields with
      | None | Some JNull => false
      | Some _ => true
      end
  | _ => false
  end.

(** The insight entries of one image of a parsed file. *)
Definition item_entries (item : string * json) : list (string * json) :=
  match py_iter item.2 with
  | Ok entries => (fun ins => (item.1, ins)) <$> entries
  | Raise _ => []
  end.

(** The insight entries of a parsed file, each with its image path. *)
Definition file_entries (data : json) : list (string * json) :=
  match py_items data with
  | Ok items => items ≫= item_entries
  | Raise _ => []
  end.

(** The run directory is visited: a directory named [run_...] without
    [error.json]. *)
Definition run_qualifies (e : DirEntry) : bool :=
  entry_isdir e && String.prefix "run_" (entry_name e)
    && negb (entry_has_error_json e).



(** What one entry adds to the record set: one record carrying the entry's
    score, text and paths when [avg_scores] is present and not null, and
    nothing otherwise. *)
Definition entry_adds `{FloatOps} (run_dir rname img : string) (ins : json)
    (c : list Insight) : Prop :=
  if has_score ins then
    exists r, c = [r] /\
      (exists v, dict_get "avg_scores" JNull ins = Ok v /\
                 py_float v = Ok (score r)) /\
      dict_get "insight" (JStr "") ins = Ok (insight r) /\
      img_path r =
        path_join (path_join (path_join run_dir "viz") "verified")
          (basename img) /\
      run_name r = rname /\
      original_path r = img
  else c = [].

Definition contributes `{FloatOps} (runs_root : string)
    (e : string * string * json) (c : list Insight) : Prop :=
  let '(rname, img, ins) := e in
  entry_adds (path_join runs_root rname) rname img ins c.

(** The first exception among the items of a loop, if any. *)
Fixpoint first_raise {I} (status : I -> option exn) (items : list I)
  : option exn :=
  match items with
  | [] => None
  | i :: items' =>
      match status i with
      | None => first_raise status items'
      | Some e => Some e
      end
  end.

(** Whether an entry or an image item raises; it depends neither on the run
    nor on the records loaded so far. *)
Definition entry_status `{FloatOps} (ins : json) : option exn :=
  (ExtractAllDatasets.load_insight "" "" "" ins []).2.

Definition item_status `{FloatOps} (item : string * json) : option exn :=
  (ExtractAllDatasets.load_item "" "" item []).2.

(** The file is walked to its end without an exception. *)
Definition reads_cleanly `{FloatOps} (data : json) : Prop :=
  (ExtractAllDatasets.load_file "" "" (Ok data) []).2 = None.



(** The input layout: an object from image paths to lists of objects whose
    [avg_scores] is a number or null. *)
Definition entry_wf (ins : json) : Prop :=
  exists fields, ins = JObj fields /\
    match assoc "avg_scores" fields with
    | None | Some JNull | Some (JNum _) => True
    | _ => False
    end.

Definition file_wf (data : json) : Prop :=
  exists items, data = JObj items /\
    Forall (fun item => exists entries,
              item.2 = JArr entries /\ Forall entry_wf entries) items.

(** What one listed name adds when it is visited: the records of its file,
    and a warning when the walk of the file raises. *)
Definition run_outcome `{FloatOps} (runs_root : string) (e : DirEntry)
  : list Insight * list log_line :=
  if run_qualifies e then
    match entry_insights e with
    | Some file =>
        let run_dir := path_join runs_root (entry_name e) in
        let '(recs, raised) :=
          ExtractAllDatasets.load_file run_dir (entry_name e) file [] in
        (recs,
         match raised with
         | Some ex =>
             [LogWarnRead (path_join run_dir "insights_validated.json") ex]
         | None => []
         end)
    | None => ([], [])
    end
  else ([], []).

(** The record [r] was read from an entry of a visited run: an entry with a
    present, non-null [avg_scores] listed under the image [original_path r]
    in the parsed file of the run named [run_name r]. *)
Definition record_from `{FloatOps} (runs_root : string)
    (entries : list DirEntry) (r : Insight) : Prop :=
  exists e data ins,
    e ∈ entries /\ run_qualifies e = true /\ entry_name e = run_name r /\
    entry_insights e = Some (Ok data) /\
    (original_path r, ins) ∈ file_entries data /\
    has_score ins = true /\
    contributes runs_root (run_name r, original_path r, ins) [r].

(** A line printed by the loader: a warning about a run's insights file. *)
Definition is_read_warning (runs_root : string) (entries : list DirEntry)
    (line : log_line) : Prop :=
  exists e ex,
    e ∈ entries /\ run_qualifies e = true /\
    line = LogWarnRead
             (path_join (path_join runs_root (entry_name e))
                "insights_validated.json") ex.

(** The run name of [r1] is not above that of [r2]. *)
Definition run_name_le (r1 r2 : Insight) : Prop :=
  String.ltb (run_name r2) (run_name r1) = false.

(** A listing with two visited runs out of order, a plain file and a run
    with [error.json]. *)
Definition listing_mixed : list DirEntry :=
  [ mkEntry "run_b" true false
      (Some (Ok (JObj [("b.png", JArr [JObj [("avg_scores", JNum (2#1))]])])));
    mkEntry "tmp" false false None;
    mkEntry "run_a" true false
      (Some (Ok (JObj [("a.png", JArr [JObj [("avg_scores", JNum (9#1))]])])));
    mkEntry "run_c" true true
      (Some (Ok (JObj [("c.png", JArr [JObj [("avg_scores", JNum (1#1))]])]))) ].

(** The visited runs of [listing_mixed]. *)
Definition listing_visited : list DirEntry :=
  [ mkEntry "run_b" true false
      (Some (Ok (JObj [("b.png", JArr [JObj [("avg_scores", JNum (2#1))]])])));
    mkEntry "run_a" true false
      (Some (Ok (JObj [("a.png", JArr [JObj [("avg_scores", JNum (9#1))]])]))) ].

(** What loading [listing_mixed] under ["/runs"] gives. *)
Definition loaded_mixed : list Insight :=
  [ mkInsight (9#1) (JStr "") "/runs/run_a/viz/verified/a.png" "run_a" "a.png";
    mkInsight (2#1) (JStr "") "/runs/run_b/viz/verified/b.png" "run_b" "b.png" ].


(** The step leaves the directory listings as they are. *)
Definition keeps_listdir {A} (m : prog A) : Prop :=
  forall w, w_listdir (m w).2 = w_listdir w.



(** Where the image of the [i]-th sample of a dataset is copied. *)
Definition sample_path (dataset_key : string) (i : nat) : string :=
  path_join
    (path_join ExtractAllDatasets.OUTPUT_BASE
       ("img/interactive_" +:+ dataset_key))
    ("sample_" +:+ pretty i +:+ ".png").

(* ================================================================= *)
(** * The sampler on objects and references

    To state what a call leaves untouched, the sampler is given a second
    time over a store of objects: lists and dictionaries live at locations,
    [sorted] and the list displays allocate, [append] updates in place. *)

Inductive pyval : Type :=
  | VInt (z : Z)
  | VRef (l : nat).

Inductive pyobj : Type :=
  | ODict (r : Insight)
  | OList (items : list pyval).

(** A step on the store: it may raise, and changes the store either way. *)
Definition hprog (A : Type) : Type :=
  gmap nat pyobj -> result A * gmap nat pyobj.

Global Instance hprog_ret : MRet hprog := fun A a h => (Ok a, h).
Global Instance hprog_bind : MBind hprog := fun A B f m h =>
  match m h with
  | (Ok a, h') => f a h'
  | (Raise e, h') => (Raise e, h')
  end.

Definition hlift {A} (r : result A) : hprog A := fun h => (r, h).

(** A new object at a location not in use. *)
Definition alloc (o : pyobj) : hprog nat := fun h =>
  let l := fresh (dom h) in (Ok l, <[l:=o]> h).

(** The items of the list at [l]. *)
Definition list_items (l : nat) : hprog (list pyval) := fun h =>
  match h !! l with
  | Some (OList vs) => (Ok vs, h)
  | _ => (Raise TypeError, h)
  end.

(** [l[i]] *)
Definition list_index (l : nat) (i : Z) : hprog pyval :=
  vs ← list_items l; hlift (py_index vs i).

(** [l.append(v)] *)
Definition list_append (l : nat) (v : pyval) : hprog unit := fun h =>
  match h !! l with
  | Some (OList vs) => (Ok tt, <[l:=OList (vs ++ [v])]> h)
  | _ => (Raise AttributeError, h)
  end.

(** [x["score"]] *)
Definition get_score (h : gmap nat pyobj) (v : pyval) : result Q :=
  match v with
  | VRef l => match h !! l with
              | Some (ODict r) => Ok (score r)
              | _ => Raise TypeError
              end
  | VInt _ => Raise TypeError
  end.

(** [sorted(insights, key=lambda x: x["score"])]: the keys are taken once,
    in order; the result is a new list of the same references. *)
Definition heap_sorted (insights : nat) : hprog nat :=
  vs ← list_items insights;
  keyed ← (fun h => (mapM (fun v => k ← get_score h v; Ok (k, v)) vs, h));
  alloc (OList (snd <$> py_sorted Qltb fst keyed)).

(** A [for] loop of store steps. *)
Fixpoint for_each_h {I} (body : I -> hprog unit) (items : list I) : hprog unit :=
  match items with
  | [] => mret tt
  | i :: items' => body i;; for_each_h body items'
  end.

Definition sample_insights_heap (insights : nat) (interval : Z)
  : hprog (nat * nat) :=
  sorted_insights ← heap_sorted insights;
  vs ← list_items sorted_insights;
  let n := Z.of_nat (length vs) in
  if n =? 0 then
    sampled ← alloc (OList []);
    indices ← alloc (OList []);
    mret (sampled, indices)
  else if n =? 1 then
    x ← list_index sorted_insights 0;
    sampled ← alloc (OList [x]);
    indices ← alloc (OList [VInt 0]);
    mret (sampled, indices)
  else
    x0 ← list_index sorted_insights 0;
    sampled ← alloc (OList [x0]);
    indices ← alloc (OList [VInt 0]);
    let last_idx := n - 1 in
    r ← hlift (py_range interval last_idx interval);
    for_each_h (fun i =>
                  x ← list_index sorted_insights i;
                  list_append sampled x;;
                  list_append indices (VInt i)) r;;
    xl ← list_index sorted_insights (-1);
    list_append sampled xl;;
    list_append indices (VInt last_idx);;
    mret (sampled, indices).

(** [v] refers to a dictionary holding the record [r]. *)
Definition is_record (h : gmap nat pyobj) (v : pyval) (r : Insight) : Prop :=
  exists l, v = VRef l /\ h !! l = Some (ODict r).

(** The list at [l] holds references to the records [rs], in order. *)
Definition is_insights (h : gmap nat pyobj) (l : nat) (rs : list Insight)
  : Prop :=
  exists vs, h !! l = Some (OList vs) /\ Forall2 (is_record h) vs rs.

(** The list at [l] holds the integers [zs]. *)
Definition is_ints (h : gmap nat pyobj) (l : nat) (zs : list Z) : Prop :=
  h !! l = Some (OList (VInt <$> zs)).

(** The outcome [r] of a call on the store [h] stands for the outcome [p]
    of the sampler on values. *)
Definition is_outcome (h : gmap nat pyobj) (r : result (nat * nat))
    (p : result (list Insight * list Z)) : Prop :=
  match r, p with
  | Ok (ls, li), Ok (sampled, indices) =>
      is_insights h ls sampled /\ is_ints h li indices
  | Raise e, Raise e' => e = e'
  | _, _ => False
  end.

(* ================================================================= *)
(** * scripts/extract_interactive_data.py: the loader, the image encoder
      and [main]

    The single-dataset script writes a document without the dataset keys
    and prints lines of its own, so its steps run on a world that holds
    these documents and lines.  The file system operations are those of
    [World]. *)

(** The document of [interactive_scores_pruning_0.6.json]. *)
Record ScoresData : Type := mkScores {
  scores_curve : CurveData;
  scores_samples : list SampleData;
  scores_interval : Z
}.

Inductive ifile_content : Type :=
  | IImage (bytes : string)
  | IJson (doc : ScoresData).

(** The printed lines of the script. *)
Inductive iline : Type :=
  | ILoadingAll
  | ITotal (n : Z)
  | ISampled (n interval : Z)
  | ICopied (i : nat) (src dst : string)
  | IWarnImage (path : string)
  | IWarnRead (path : string) (e : exn)
  | IWarnReadImage (path : string) (e : exn)
  | ISaved (path : string)
  | ICurve (total : Z) (avg : Q)
  | ISampledPoints (n : Z).

Record IWorld : Type := mkIWorld {
  iw_listdir : string -> result (list DirEntry);
  iw_dirs : gset string;
  iw_files : gmap string ifile_content;
  iw_stdout : list iline
}.

Definition iprog (A : Type) : Type := IWorld -> result A * IWorld.

Global Instance iprog_ret : MRet iprog := fun A a w => (Ok a, w).
Global Instance iprog_bind : MBind iprog := fun A B f m w =>
  match m w with
  | (Ok a, w') => f a w'
  | (Raise e, w') => (Raise e, w')
  end.

Definition ilift_result {A} (r : result A) : iprog A := fun w => (r, w).

Definition ilog_to (lines : list iline) (w : IWorld) : IWorld :=
  mkIWorld (iw_listdir w) (iw_dirs w) (iw_files w) (iw_stdout w ++ lines).

Definition iprint (l : iline) : iprog unit := fun w => (Ok tt, ilog_to [l] w).

Definition ilistdir (path : string) : iprog (list DirEntry) := fun w =>
  (iw_listdir w path, w).

(** [os.path.exists(path)] *)
Definition ipath_exists (path : string) : iprog bool := fun w =>
  (Ok (bool_decide (path ∈ iw_dirs w)
       || bool_decide (is_Some (iw_files w !! path))), w).

(** [os.makedirs(path, exist_ok=True)] *)
Definition imakedirs (path : string) : iprog unit := fun w =>
  if bool_decide (is_Some (iw_files w !! path)) then (Raise FileExistsError, w)
  else (Ok tt, mkIWorld (iw_listdir w)
                 (iw_dirs w ∪ list_to_set (dir_chain "" path))
                 (iw_files w) (iw_stdout w)).

(** [shutil.copy2(src, dst)]: into [dst] when it is a directory. *)
Definition icopy2 (src dst : string) : iprog unit := fun w =>
  match iw_files w !! src with
  | Some c =>
      let target :=
        if bool_decide (dst ∈ iw_dirs w) then path_join dst (basename src)
        else dst in
      (Ok tt, mkIWorld (iw_listdir w) (iw_dirs w) (<[target:=c]> (iw_files w))
                (iw_stdout w))
  | None =>
      if bool_decide (src ∈ iw_dirs w) then (Raise IsADirectoryError, w)
      else (Raise FileNotFoundError, w)
  end.

(** [with open(path, "w") as f: json.dump(doc, f)] *)
Definition iwrite_json (path : string) (doc : ScoresData) : iprog unit :=
  fun w =>
  if bool_decide (path ∈ iw_dirs w) then (Raise IsADirectoryError, w)
  else (Ok tt, mkIWorld (iw_listdir w) (iw_dirs w)
                 (<[path:=IJson doc]> (iw_files w)) (iw_stdout w)).

(** The serializer of [json.dump] and [base64.b64encode(...).decode];
    the script only calls them. *)
Class Encoders : Type := {
  json_dumps : ScoresData -> string;
  b64encode : string -> string
}.

(** [with open(path, "rb") as f: f.read()] *)
Definition iread_bytes `{Encoders} (path : string) : iprog string := fun w =>
  match iw_files w !! path with
  | Some (IImage bytes) => (Ok bytes, w)
  | Some (IJson doc) => (Ok (json_dumps doc), w)
  | None =>
      if bool_decide (path ∈ iw_dirs w) then (Raise IsADirectoryError, w)
      else (Raise FileNotFoundError, w)
  end.

(** [try: body  except Exception as e: handler e] *)
Definition try_except {A} (body : iprog A) (handler : exn -> iprog A)
  : iprog A := fun w =>
  match body w with
  | (Ok a, w') => (Ok a, w')
  | (Raise e, w') => handler e w'
  end.

Fixpoint for_each_iprog {I S} (body : I -> S -> iprog S) (items : list I)
    (s : S) : iprog S :=
  match items with
  | [] => mret s
  | i :: items' => s' ← body i s; for_each_iprog body items' s'
  end.

Module ExtractInteractiveSteps.

Section Script.
Context `{FloatOps}.

(** The body of [for ins in ins_list]. *)
Definition load_insight (run_dir run_name img_path : string) (ins : json)
    (all_insights : list Insight) : list Insight * option exn :=
  match
    score ← dict_get "avg_scores" JNull ins;
    insight_text ← dict_get "insight" (JStr "") ins;
    if negb (is_none score) then
      let img_filename := basename img_path in
      let verified_dir := path_join (path_join run_dir "viz") "verified" in
      let actual_img_path := path_join verified_dir img_filename in
      s ← py_float score;
      Ok (all_insights
            ++ [mkInsight s insight_text actual_img_path run_name img_path])
    else Ok all_insights
  with
  | Ok all_insights' => (all_insights', None)
  | Raise e => (all_insights, Some e)
  end.

(** The body of [for img_path, ins_list in data.items()]. *)
Definition load_item (run_dir run_name : string) (item : string * json)
    (all_insights : list Insight) : list Insight * option exn :=
  let '(img_path, ins_list) := item in
  match py_iter ins_list with
  | Ok entries =>
      for_each_st (load_insight run_dir run_name img_path) entries all_insights
  | Raise e => (all_insights, Some e)
  end.

(** The body of [try]: the file is opened and parsed, then walked. *)
Definition load_file (run_dir run_name : string) (file : result json)
    (all_insights : list Insight) : list Insight * option exn :=
  match data ← file; py_items data with
  | Ok items => for_each_st (load_item run_dir run_name) items all_insights
  | Raise e => (all_insights, Some e)
  end.

(** The body of [for run_name in sorted(os.listdir(runs_root))]. *)
Definition load_run (runs_root : string) (e : DirEntry)
    (all_insights : list Insight) : iprog (list Insight) :=
  let run_name := entry_name e in
  let run_dir := path_join runs_root run_name in
  if negb (entry_isdir e) || negb (String.prefix "run_" run_name) then
    mret all_insights
  else if entry_has_error_json e then mret all_insights
  else
    let insight_path := path_join run_dir "insights_validated.json" in
    match entry_insights e with
    | None => mret all_insights
    | Some file =>
        let '(all_insights', raised) :=
          load_file run_dir run_name file all_insights in
        match raised with
        | None => mret all_insights'
        | Some ex => iprint (IWarnRead insight_path ex);; mret all_insights'
        end
    end.

Definition load_all_insights (runs_root : string) : iprog (list Insight) :=
  entries ← ilistdir runs_root;
  for_each_iprog (load_run runs_root)
    (py_sorted String.ltb entry_name entries) [].

Definition image_to_base64 `{Encoders} (img_path : string) : iprog string :=
  found ← ipath_exists img_path;
  if negb found then mret ""
  else
    try_except
      (bytes ← iread_bytes img_path; mret (b64encode bytes))
      (fun e => iprint (IWarnReadImage img_path e);; mret "").

(** The body of [for i, (ins, idx) in enumerate(zip(sampled, sampled_indices))]. *)
Definition emit_sample (img_output_dir : string)
    (item : nat * (Insight * Z)) (sampled_data : list SampleData)
  : iprog (list SampleData) :=
  let '(i, (ins, idx)) := item in
  let img_filename := "sample_" +:+ pretty i +:+ ".png" in
  let dest_path := path_join img_output_dir img_filename in
  found ← ipath_exists (img_path ins);
  (if found : bool then
     icopy2 (img_path ins) dest_path;;
     iprint (ICopied i (img_path ins) dest_path)
   else iprint (IWarnImage (img_path ins)));;
  mret (sampled_data
          ++ [mkSample idx (round2 (score ins)) (insight ins)
                ("img/interactive_pruning_0.6/sample_" +:+ pretty i +:+ ".png")
                (run_name ins)]).

Definition runs_root : string :=
  "/home/shuyu/projects/insight_scaling/ablation/tokens/6_sentences/pruning_0.6/VIS.csv_20251212-021125/runs".

Definition output_dir : string :=
  "/home/shuyu/projects/insight-scaling-webpage/data".

Definition img_output_dir : string :=
  "/home/shuyu/projects/insight-scaling-webpage/img/interactive_pruning_0.6".

Definition main : iprog unit :=
  imakedirs output_dir;;
  imakedirs img_output_dir;;
  iprint ILoadingAll;;
  all_insights ← load_all_insights runs_root;
  iprint (ITotal (Z.of_nat (length all_insights)));;
  let sorted_insights := sorted_by_score all_insights in
  let all_scores := score <$> sorted_insights in
  let interval := 20 in
  '(sampled, sampled_indices) ←
    ilift_result (ExtractInteractiveData.sample_insights all_insights interval);
  iprint (ISampled (Z.of_nat (length sampled)) interval);;
  let curve_data :=
    mkCurve all_scores (Z.of_nat (length all_scores))
      (ExtractAllDatasets.avg_score all_scores)
      (ExtractAllDatasets.min_score all_scores)
      (ExtractAllDatasets.max_score all_scores) in
  sampled_data ←
    for_each_iprog (emit_sample img_output_dir)
      (imap (fun i x => (i, x)) (zip sampled sampled_indices)) [];
  let output_data := mkScores curve_data sampled_data interval in
  let output_path :=
    path_join output_dir "interactive_scores_pruning_0.6.json" in
  iwrite_json output_path output_data;;
  iprint (ISaved output_path);;
  iprint (ICurve (curve_total_count curve_data) (curve_avg_score curve_data));;
  iprint (ISampledPoints (Z.of_nat (length sampled_data))).

End Script.

End ExtractInteractiveSteps.

(** The warnings one listed name gives rise to under [runs_root]: the path
    of its insights file with the exception that ended the walk. *)
Definition run_warnings `{FloatOps} (runs_root : string) (e : DirEntry)
  : list (string * exn) :=
  if run_qualifies e then
    match entry_insights e with
    | Some file =>
        let run_dir := path_join runs_root (entry_name e) in
        match (ExtractAllDatasets.load_file run_dir (entry_name e) file []).2
        with
        | Some ex => [(path_join run_dir "insights_validated.json", ex)]
        | None => []
        end
    | None => []
    end
  else [].

(** The warning line of each script for an insights file and an exception. *)
Definition warn_all (pe : string * exn) : log_line := LogWarnRead pe.1 pe.2.
Definition warn_interactive (pe : string * exn) : iline := IWarnRead pe.1 pe.2.



(** A world of the single-dataset script with one listing at [root]. *)
Definition iworld_at (root : string) (listing : list DirEntry) : IWorld :=
  mkIWorld (fun p => if String.eqb p root then Ok listing
                     else Raise FileNotFoundError) ∅ ∅ [].

(** ** Test data *)

Definition insight_of_score (q : Q) : Insight :=
  mkInsight q (JStr "") "" "run_0" "".

Definition scores_5 : list Insight :=
  insight_of_score <$> [5#1; 3#1; 1#1; 4#1; 2#1]%Q.

Definition scores_0_24 : list Insight :=
  (fun k => insight_of_score (inject_Z k)) <$> seqZ 0 25.

Definition exact_floats : FloatOps :=
  {| str_to_float := fun _ => None; float_add := Qplus; float_div := Qdiv;
     round2 := fun q => q |}.

Definition entry_obj (s : json) : json :=
  JObj [("insight", JStr "text"); ("avg_scores", s)].

(** A file in the input layout: scores are numbers or null, or missing. *)
Definition file_ok : json :=
  JObj [("plots/img1.png",
         JArr [entry_obj (JNum (3#1)); entry_obj JNull;
               JObj [("insight", JStr "x")]; entry_obj (JNum (1#2))]);
        ("img2.png", JArr [entry_obj (JNum (7#1))])].

(** A file whose second image has a score that [float] rejects. *)
Definition file_bad_score : json :=
  JObj [("img1.png", JArr [entry_obj (JNum (3#1))]);
        ("img2.png", JArr [entry_obj (JStr "abc"); entry_obj (JNum (7#1))])].

Definition listing_ok : list DirEntry :=
  [ mkEntry "run_2" true false (Some (Ok file_ok));
    mkEntry "run_1" true false (Some (Raise JSONDecodeError));
    mkEntry "run_0" true true (Some (Ok file_ok));
    mkEntry "notes" true false (Some (Ok file_ok));
    mkEntry "run_3" false false None ].

Definition listing_null : list DirEntry :=
  [ mkEntry "run_0" true false
      (Some (Ok (JObj [("img.png", JArr [entry_obj JNull])]))) ].

Definition world_of (listing : list DirEntry) : World :=
  mkWorld (fun p => if String.eqb p "/runs" then Ok listing
                    else Raise FileNotFoundError) ∅ ∅ [].

Definition config_runs : ExtractAllDatasets.DatasetConfig :=
  ExtractAllDatasets.mkConfig "/runs" "Test runs" 10.

(** A store with three records and the list [[r5; r1; r3]] at location 3. *)
Definition heap_3 : gmap nat pyobj :=
  {[ 0%nat := ODict (insight_of_score (5#1));
     1%nat := ODict (insight_of_score (1#1));
     2%nat := ODict (insight_of_score (3#1));
     3%nat := OList [VRef 0; VRef 1; VRef 2] ]}.

Definition records_3 : list Insight :=
  insight_of_score <$> [5#1; 1#1; 3#1]%Q.



Definition config_diabetes : ExtractAllDatasets.DatasetConfig :=
  ExtractAllDatasets.mkConfig
    "/home/shuyu/projects/insight_scaling/ablation/new_prompt/diabetes/baseline/diabetes.csv_20251222-024828/runs"
    "Diabetes" 10.

(** The world of [listing_mixed] with the image of [run_a] on disk and an
    older copy at the place of the first sample. *)
Definition world_with_image : World :=
  mkWorld (fun p => if String.eqb p "/runs" then Ok listing_mixed
                    else Raise FileNotFoundError) ∅
    {[ "/runs/run_a/viz/verified/a.png" := FImage "image of run_a";
       sample_path "mixed" 0 := FImage "older image" ]} [].

(* ================================================================= *)
(** * Properties *)

(** ** The stable sort *)

Section SortedFacts.
Context {A K : Type} (ltb : K -> K -> bool) (key : A -> K).

(** [ltb] is a strict weak order, as [<] is on non-NaN floats. *)
Hypothesis ltb_irrefl : forall x, ltb x x = false.
Hypothesis ltb_trans :
  forall x y z, ltb x y = true -> ltb y z = true -> ltb x z = true.
Hypothesis nltb_trans :
  forall x y z, ltb x y = false -> ltb y z = false -> ltb x z = false.

Lemma ltb_asym x y : ltb x y = true -> ltb y x = false.
Proof using ltb_irrefl ltb_trans.
  intros Hxy. destruct (ltb y x) eqn:Hyx; [|done].
  by rewrite <- (ltb_irrefl x), (ltb_trans x y x).
Qed.

Lemma key_le_trans x y z :
  key_le ltb key x y -> key_le ltb key y z -> key_le ltb key x z.
Proof using nltb_trans. unfold key_le. eauto. Qed.

Lemma length_insert_stable x l :
  length (insert_stable ltb key x l) = S (length l).
Proof. induction l as [|y l IH]; simpl; [done|]. case_match; simpl; lia. Qed.

Lemma length_py_sorted l : length (py_sorted ltb key l) = length l.
Proof.
  induction l as [|x l IH]; simpl; [done|].
  by rewrite length_insert_stable, IH.
Qed.

Lemma insert_stable_perm x l : insert_stable ltb key x l ≡ₚ x :: l.
Proof.
  induction l as [|y l IH]; simpl; [done|].
  case_match; [|done]. rewrite IH. apply Permutation_swap.
Qed.

Lemma py_sorted_perm l : py_sorted ltb key l ≡ₚ l.
Proof.
  induction l as [|x l IH]; simpl; [done|].
  by rewrite insert_stable_perm, IH.
Qed.

Lemma elem_of_py_sorted x l : x ∈ py_sorted ltb key l <-> x ∈ l.
Proof. by rewrite py_sorted_perm. Qed.

Lemma insert_stable_sorted x l :
  StronglySorted (key_le ltb key) l ->
  StronglySorted (key_le ltb key) (insert_stable ltb key x l).
Proof using ltb_irrefl ltb_trans nltb_trans.
  induction 1 as [|y l Hl IH Hy]; simpl.
  - repeat constructor.
  - destruct (ltb (key y) (key x)) eqn:Hyx.
    + constructor; [done|].
      rewrite insert_stable_perm. constructor; [|done].
      by apply ltb_asym.
    + constructor; [by constructor|].
      constructor; [done|].
      eapply Forall_impl; [exact Hy|].
      intros z Hz. by apply (key_le_trans x y z).
Qed.

Lemma py_sorted_sorted l : StronglySorted (key_le ltb key) (py_sorted ltb key l).
Proof using ltb_irrefl ltb_trans nltb_trans.
  induction l as [|x l IH]; simpl; [constructor|].
  by apply insert_stable_sorted.
Qed.



(** Stability: among the elements whose key is equivalent to [k], the
    encounter order is kept. *)
Lemma insert_stable_filter k x l :
  filter (fun y => key_equiv ltb key k y = true) (insert_stable ltb key x l) =
  filter (fun y => key_equiv ltb key k y = true) (x :: l).
Proof using ltb_irrefl ltb_trans nltb_trans.
  induction l as [|y l IH]; simpl; [done|].
  destruct (ltb (key y) (key x)) eqn:Hyx; [|done].
  rewrite filter_cons, IH, !filter_cons.
  destruct (decide (key_equiv ltb key k x = true)) as [Hx|Hx];
    destruct (decide (key_equiv ltb key k y = true)) as [Hy|Hy]; try done.
  exfalso. unfold key_equiv in Hx, Hy.
  apply andb_true_iff in Hx as [Hx1 Hx2], Hy as [Hy1 Hy2].
  apply negb_true_iff in Hx1, Hx2, Hy1, Hy2.
  by rewrite (nltb_trans _ _ _ Hy1 Hx2) in Hyx.
Qed.

Lemma py_sorted_stable k l :
  filter (fun y => key_equiv ltb key k y = true) (py_sorted ltb key l) =
  filter (fun y => key_equiv ltb key k y = true) l.
Proof using ltb_irrefl ltb_trans nltb_trans.
  induction l as [|x l IH]; simpl; [done|].
  by rewrite insert_stable_filter, !filter_cons, IH.
Qed.

Lemma key_equiv_refl x : key_equiv ltb key (key x) x = true.
Proof using ltb_irrefl. unfold key_equiv. by rewrite ltb_irrefl. Qed.

(** A sorted list is determined by the order of its elements within each
    class of equivalent keys: there is one stable sorted arrangement, so
    every stable sort computes [py_sorted]. *)
Lemma stable_sorted_unique l1 l2 :
  StronglySorted (key_le ltb key) l1 ->
  StronglySorted (key_le ltb key) l2 ->
  (forall k, filter (fun y => key_equiv ltb key k y = true) l1 =
             filter (fun y => key_equiv ltb key k y = true) l2) ->
  l1 = l2.
Proof using ltb_irrefl.
  intros Hs1. revert l2.
  induction Hs1 as [|x l1 Hl1 IH Hx]; intros l2 Hs2 Hfilter.
  - destruct l2 as [|y l2]; [done|].
    specialize (Hfilter (key y)).
    by rewrite filter_nil, filter_cons_True in Hfilter
      by apply key_equiv_refl.
  - destruct Hs2 as [|y l2 Hl2 Hy].
    { specialize (Hfilter (key x)).
      by rewrite filter_nil, filter_cons_True in Hfilter
        by apply key_equiv_refl. }
    assert (key_equiv ltb key (key x) y = true) as Hxy.
    { assert (y ∈ x :: l1) as Hy1.
      { eapply (list_elem_of_filter (fun z => key_equiv ltb key (key y) z = true)).
        rewrite (Hfilter (key y)), filter_cons_True by apply key_equiv_refl.
        left. }
      assert (x ∈ y :: l2) as Hx2.
      { eapply (list_elem_of_filter (fun z => key_equiv ltb key (key x) z = true)).
        rewrite <- (Hfilter (key x)), filter_cons_True by apply key_equiv_refl.
        left. }
      unfold key_equiv. apply andb_true_iff. split; apply negb_true_iff.
      - apply elem_of_cons in Hy1 as [->|Hy1]; [apply ltb_irrefl|].
        by eapply Forall_forall in Hx.
      - apply elem_of_cons in Hx2 as [->|Hx2]; [apply ltb_irrefl|].
        by eapply Forall_forall in Hy. }
    assert (x = y) as <-.
    { specialize (Hfilter (key x)).
      rewrite !filter_cons_True in Hfilter
        by (done || apply key_equiv_refl).
      congruence. }
    f_equal. apply IH; [done|]. intros k. specialize (Hfilter k).
    rewrite !filter_cons in Hfilter. case_decide; congruence.
Qed.

Lemma py_sorted_unique l l' :
  StronglySorted (key_le ltb key) l' ->
  (forall k, filter (fun y => key_equiv ltb key k y = true) l' =
             filter (fun y => key_equiv ltb key k y = true) l) ->
  l' = py_sorted ltb key l.
Proof using ltb_irrefl ltb_trans nltb_trans.
  intros Hs Hfilter. apply stable_sorted_unique; [done|apply py_sorted_sorted|].
  intros k. by rewrite py_sorted_stable.
Qed.
End SortedFacts.

(** ** The order on scores *)







Lemma length_sorted_by_score l : length (sorted_by_score l) = length l.
Proof. apply length_py_sorted. Qed.








(** ** Indexing, ranges and the stride loop *)

Lemma py_index_nonneg {A} (l : list A) i :
  0 <= i < Z.of_nat (length l) ->
  exists x, l !! Z.to_nat i = Some x /\ py_index l i = Ok x.
Proof.
  intros Hi. unfold py_index.
  destruct (Z.ltb_spec i 0); [lia|].
  destruct (Z.ltb_spec i 0), (Z.leb_spec (Z.of_nat (length l)) i); try lia.
  destruct (lookup_lt_is_Some_2 l (Z.to_nat i)) as [x Hx]; [lia|].
  exists x. by rewrite Hx.
Qed.

Lemma py_index_head {A} (l : list A) x :
  head l = Some x -> py_index l 0 = Ok x.
Proof. by destruct l; intros; simplify_eq/=. Qed.

Lemma py_index_last {A} (l : list A) x :
  last l = Some x -> py_index l (-1) = Ok x.
Proof.
  intros Hx. unfold py_index.
  assert (l <> []) as Hl by (intros ->; done).
  assert (0 < length l)%nat by (destruct l; simpl; [done|lia]).
  destruct (Z.ltb_spec (-1) 0); [|lia].
  destruct (Z.ltb_spec (-1 + Z.of_nat (length l)) 0),
    (Z.leb_spec (Z.of_nat (length l)) (-1 + Z.of_nat (length l))); try lia.
  simpl. rewrite last_lookup in Hx.
  replace (Z.to_nat (-1 + Z.of_nat (length l))) with (pred (length l)) by lia.
  by rewrite Hx.
Qed.

Lemma py_range_nonzero start stop step :
  step <> 0 -> py_range start stop step = Ok (range_items start stop step).
Proof. intros. unfold py_range. by destruct (Z.eqb_spec step 0). Qed.

Lemma range_length_pos start stop step :
  0 < step -> start < stop ->
  let n := range_length start stop step in
  0 < n /\ start + (n - 1) * step < stop <= start + n * step.
Proof.
  intros Hstep Hlt. unfold range_length.
  destruct (Z.ltb_spec 0 step); [|lia].
  destruct (Z.leb_spec stop start); [lia|]. simpl.
  pose proof (Z.div_mod (stop - start - 1) step ltac:(lia)).
  pose proof (Z.mod_pos_bound (stop - start - 1) step ltac:(lia)).
  pose proof (Z.div_pos (stop - start - 1) step ltac:(lia) ltac:(lia)).
  nia.
Qed.

Lemma range_length_empty start stop step :
  (0 < step /\ stop <= start) \/ (step < 0 /\ start <= stop) ->
  range_length start stop step = 0.
Proof.
  intros H. unfold range_length.
  destruct (Z.ltb_spec 0 step).
  - destruct (Z.leb_spec stop start); [done|lia].
  - destruct (Z.leb_spec start stop); [done|lia].
Qed.

(** Membership in a range with a positive step. *)
Lemma elem_of_range_items_pos start stop step i :
  0 < step ->
  i ∈ range_items start stop step <->
  start <= i < stop /\ exists k, 0 <= k /\ i = start + k * step.
Proof.
  intros Hstep. unfold range_items. rewrite list_elem_of_fmap.
  setoid_rewrite elem_of_seqZ.
  destruct (Z.le_gt_cases stop start) as [Hle|Hlt].
  - rewrite range_length_empty by lia. split; [|nia].
    intros (k & -> & Hk). lia.
  - destruct (range_length_pos start stop step Hstep Hlt) as [Hn Hb].
    split.
    + intros (k & -> & Hk). split; [nia|]. exists k. lia.
    + intros (Hi & k & Hk & ->). exists k. split; [done|]. nia.
Qed.

Lemma StronglySorted_seqZ m n : StronglySorted Z.lt (seqZ m n).
Proof.
  remember (Z.to_nat n) as k eqn:Hk. revert m n Hk.
  induction k as [|k IH]; intros m n Hk.
  - rewrite seqZ_nil by lia. constructor.
  - rewrite seqZ_cons by lia. constructor; [apply IH; lia|].
    apply Forall_seqZ. lia.
Qed.

Lemma StronglySorted_filter {A} (R : relation A) (P : A -> Prop)
    `{forall x, Decision (P x)} l :
  StronglySorted R l -> StronglySorted R (filter P l).
Proof.
  induction 1 as [|x l Hl IH Hx]; [constructor|].
  rewrite filter_cons. case_decide; [|done].
  constructor; [done|].
  apply Forall_forall. intros y [_ Hy]%list_elem_of_filter.
  by eapply Forall_forall in Hx.
Qed.

Lemma range_items_sorted start stop step :
  0 < step -> StronglySorted Z.lt (range_items start stop step).
Proof.
  intros Hstep. unfold range_items.
  eapply StronglySorted_fmap; [|apply StronglySorted_seqZ].
  intros x y Hxy. simpl. nia.
Qed.

Lemma range_items_neg_step start stop step :
  step < 0 -> start <= stop -> range_items start stop step = [].
Proof.
  intros. unfold range_items. rewrite range_length_empty by lia.
  by rewrite seqZ_nil.
Qed.

(** The stride loop succeeds when every index is within the list, and
    appends the indexed elements and the indices. *)
Lemma for_each_sample_step s items sa ia :
  Forall (fun i => 0 <= i < Z.of_nat (length s)) items ->
  exists xs,
    Forall2 (fun i x => s !! Z.to_nat i = Some x) items xs /\
    for_each (sample_step s) items (sa, ia) = Ok (sa ++ xs, ia ++ items).
Proof.
  intros Hitems. revert sa ia.
  induction Hitems as [|i items Hi _ IH]; intros sa ia.
  - exists []. split; [constructor|]. by rewrite !app_nil_r.
  - destruct (py_index_nonneg s i Hi) as (x & Hx & Hidx).
    destruct (IH (sa ++ [x]) (ia ++ [i])) as (xs & Hxs & Hloop).
    exists (x :: xs). split; [by constructor|].
    simpl. rewrite Hidx. simpl. rewrite Hloop.
    by rewrite <- !app_assoc.
Qed.

(** The indices visited by the stride loop all lie strictly between the
    first and the last index. *)
Lemma stride_indices_bounds interval last_idx :
  interval <> 0 -> 0 <= last_idx ->
  Forall (fun i => 0 < i < last_idx) (range_items interval last_idx interval).
Proof.
  intros Hne Hlast.
  destruct (Z.lt_trichotomy interval 0) as [Hneg|[?|Hpos]]; [|done|].
  - rewrite range_items_neg_step by lia. constructor.
  - apply Forall_forall. intros i Hi.
    apply elem_of_range_items_pos in Hi; [|done]. lia.
Qed.




(** ** The sampler on short and long inputs *)

Import ExtractAllDatasets.

Lemma sample_insights_nil interval : sample_insights [] interval = Ok ([], []).
Proof. reflexivity. Qed.

Lemma sample_insights_singleton x interval :
  sample_insights [x] interval = Ok ([x], [0]).
Proof. reflexivity. Qed.

Lemma sample_insights_long l interval :
  (2 <= length l)%nat -> interval <> 0 ->
  let s := sorted_by_score l in
  let last_idx := Z.of_nat (length l) - 1 in
  let mids := range_items interval last_idx interval in
  exists x0 xs xl,
    head s = Some x0 /\ last s = Some xl /\
    Forall2 (fun i x => s !! Z.to_nat i = Some x) mids xs /\
    sample_insights l interval = Ok (x0 :: xs ++ [xl], 0 :: mids ++ [last_idx]).
Proof.
  intros Hlen Hne s last_idx mids.
  assert (length s = length l) as Hs by apply length_sorted_by_score.
  destruct (head s) as [x0|] eqn:Hhd;
    [|apply head_None in Hhd; rewrite Hhd in Hs; simpl in Hs; lia].
  destruct (last s) as [xl|] eqn:Hla;
    [|apply last_None in Hla; rewrite Hla in Hs; simpl in Hs; lia].
  destruct (for_each_sample_step s mids [x0] [0]) as (xs & Hxs & Hloop).
  { eapply Forall_impl; [apply stride_indices_bounds; [done|lia]|].
    intros i ?; simpl in *. lia. }
  exists x0, xs, xl. repeat split; [done|].
  unfold sample_insights. fold s. rewrite Hs.
  destruct (Z.eqb_spec (Z.of_nat (length l)) 0); [lia|].
  destruct (Z.eqb_spec (Z.of_nat (length l)) 1); [lia|].
  rewrite (py_index_head s x0 Hhd). simpl.
  rewrite py_range_nonzero by done. simpl.
  fold last_idx mids. rewrite Hloop. simpl.
  by rewrite (py_index_last s xl Hla).
Qed.

Lemma sample_insights_returns l interval :
  interval <> 0 -> exists r, sample_insights l interval = Ok r.
Proof.
  intros Hne. destruct l as [|x [|x' l]].
  - eexists. apply sample_insights_nil.
  - eexists. apply sample_insights_singleton.
  - destruct (sample_insights_long (x :: x' :: l) interval)
      as (x0 & xs & xl & _ & _ & _ & Hrun); [simpl; lia|done|].
    eauto.
Qed.

Lemma sample_insights_zero_interval l :
  (2 <= length l)%nat -> sample_insights l 0 = Raise ValueError.
Proof.
  intros Hlen.
  pose proof (length_sorted_by_score l) as Hs.
  unfold sample_insights. rewrite Hs.
  destruct (Z.eqb_spec (Z.of_nat (length l)) 0); [lia|].
  destruct (Z.eqb_spec (Z.of_nat (length l)) 1); [lia|].
  destruct (head (sorted_by_score l)) as [x0|] eqn:Hhd;
    [|apply head_None in Hhd; rewrite Hhd in Hs; simpl in Hs; lia].
  by rewrite (py_index_head _ x0 Hhd).
Qed.

(** ** Properties of [sample_insights] *)

(** C4: on the empty list the sampler returns two empty lists, and on a
    one-element list [[x]] it returns [([x], [0])], whatever the stride
    (zero and negative strides included). *)
Theorem sample_insights_empty_singleton (k : Z) (x : Insight) :
  sample_insights [] k = Ok ([], []) /\
  sample_insights [x] k = Ok ([x], [0]).
Proof. split; [apply sample_insights_nil | apply sample_insights_singleton]. Qed.





(** C3: for every input list and every stride of at least 1 the returned
    indices are strictly increasing and each lies between 0 and
    [length - 1] inclusive. *)
Theorem sample_insights_indices_increasing
    (insights : list Insight) (interval : Z) :
  1 <= interval ->
  exists sampled indices,
    sample_insights insights interval = Ok (sampled, indices) /\
    StronglySorted Z.lt indices /\
    Forall (fun i => 0 <= i <= Z.of_nat (length insights) - 1) indices.
Proof.
  intros Hint. destruct insights as [|x [|x' l]].
  - exists [], []. repeat split; constructor.
  - exists [x], [0]. repeat split; repeat constructor; simpl; lia.
  - remember (x :: x' :: l) as insights eqn:Hins.
    assert (2 <= length insights)%nat as Hlen by (subst; simpl; lia).
    clear Hins.
    destruct (sample_insights_long insights interval)
      as (x0 & xs & xl & _ & _ & _ & Hrun); [done|lia|].
    assert (Forall (fun i => 0 < i < Z.of_nat (length insights) - 1)
      (range_items interval (Z.of_nat (length insights) - 1) interval))
      as Hmids by (apply stride_indices_bounds; lia).
    eexists _, _. split; [exact Hrun|]. split.
    + constructor.
      * apply StronglySorted_app. split_and!.
        -- intros i j Hi ->%list_elem_of_singleton.
           eapply Forall_forall in Hmids; [|exact Hi]. simpl in Hmids. lia.
        -- apply range_items_sorted. lia.
        -- repeat constructor.
      * apply Forall_app. split.
        -- eapply Forall_impl; [exact Hmids|]. simpl. lia.
        -- repeat constructor. lia.
    + constructor; [lia|]. apply Forall_app. split.
      * eapply Forall_impl; [exact Hmids|]. simpl. lia.
      * repeat constructor; lia.
Qed.

Lemma sample_insights_indices_increasing_witness :
  1 <= 10 /\
  exists sampled indices,
    sample_insights scores_0_24 10 = Ok (sampled, indices) /\
    StronglySorted Z.lt indices /\
    Forall (fun i => 0 <= i <= Z.of_nat (length scores_0_24) - 1) indices.
Proof.
  split; [lia|]. apply (sample_insights_indices_increasing scores_0_24 10). lia.
Defined.



(** C9: the samplers of the two scripts return the same pair on every input
    list and every stride; only their default strides differ, 10 and 20. *)
Theorem sample_insights_scripts_agree (insights : list Insight) (interval : Z) :
  ExtractAllDatasets.sample_insights insights interval =
    ExtractInteractiveData.sample_insights insights interval /\
  ExtractAllDatasets.default_interval = 10 /\
  ExtractInteractiveData.default_interval = 20.
Proof. done. Qed.

(** C10: with a stride of at least 1 the sampler returns normally on every
    input: the range step is not zero and every index it reads ([0], each
    index of the stride loop, [-1]) is within the sorted list.  With stride 0
    and at least two records the call raises [ValueError] instead. *)
Theorem sample_insights_total (insights : list Insight) (interval : Z) :
  (1 <= interval ->
   (exists r, sample_insights insights interval = Ok r) /\
   (exists items,
      py_range interval (Z.of_nat (length insights) - 1) interval = Ok items /\
      Forall (fun i => 0 <= i < Z.of_nat (length insights) /\
                       is_ok (py_index (sorted_by_score insights) i) = true)
        items) /\
   (insights <> [] ->
      is_ok (py_index (sorted_by_score insights) 0) = true /\
      is_ok (py_index (sorted_by_score insights) (-1)) = true)) /\
  ((2 <= length insights)%nat ->
   sample_insights insights 0 = Raise ValueError).
Proof.
  split; [|apply sample_insights_zero_interval].
  intros Hint. pose proof (length_sorted_by_score insights) as Hs.
  split_and!.
  - apply sample_insights_returns. lia.
  - eexists. split; [apply py_range_nonzero; lia|].
    destruct (Z.le_gt_cases (Z.of_nat (length insights) - 1) 0).
    + unfold range_items. rewrite range_length_empty by lia.
      rewrite seqZ_nil by lia. constructor.
    + eapply Forall_impl;
        [apply (stride_indices_bounds interval); lia|].
      intros i Hi; simpl in Hi. split; [lia|].
      destruct (py_index_nonneg (sorted_by_score insights) i) as (x & _ & ->);
        [lia|done].
  - intros Hne.
    destruct (head (sorted_by_score insights)) as [x0|] eqn:Hhd;
      [|apply head_None in Hhd; rewrite Hhd in Hs; by destruct insights].
    destruct (last (sorted_by_score insights)) as [xl|] eqn:Hla;
      [|apply last_None in Hla; rewrite Hla in Hs; by destruct insights].
    by rewrite (py_index_head _ _ Hhd), (py_index_last _ _ Hla).
Qed.

Lemma sample_insights_total_witness :
  (1 <= 2 /\ scores_5 <> [] /\ (2 <= length scores_5)%nat) /\
  (exists r, sample_insights scores_5 2 = Ok r) /\
  (exists items,
     py_range 2 (Z.of_nat (length scores_5) - 1) 2 = Ok items /\
     Forall (fun i => 0 <= i < Z.of_nat (length scores_5) /\
                      is_ok (py_index (sorted_by_score scores_5) i) = true)
       items) /\
  (is_ok (py_index (sorted_by_score scores_5) 0) = true /\
   is_ok (py_index (sorted_by_score scores_5) (-1)) = true) /\
  sample_insights scores_5 0 = Raise ValueError.
Proof.
  assert (1 <= 2) as H1 by lia.
  assert (scores_5 <> []) as H2 by discriminate.
  assert (2 <= length scores_5)%nat as H3 by (vm_compute; lia).
  split; [done|].
  destruct (sample_insights_total scores_5 2) as [Hpos _].
  destruct (sample_insights_total scores_5 0) as [_ Hzero].
  destruct (Hpos H1) as (Hok & Hidx & Hends).
  split; [exact Hok|]. split; [exact Hidx|]. split; [exact (Hends H2)|].
  exact (Hzero H3).
Defined.

(** ** The order on run names *)

Lemma ascii_compare_refl a : Ascii.compare a a = Eq.
Proof. apply N.compare_refl. Qed.

Lemma ascii_compare_lt_trans a b c :
  Ascii.compare a b = Lt -> Ascii.compare b c = Lt -> Ascii.compare a c = Lt.
Proof. unfold Ascii.compare. rewrite !N.compare_lt_iff. lia. Qed.

Lemma string_compare_refl s : String.compare s s = Eq.
Proof. induction s as [|a s IH]; simpl; [done|]. by rewrite ascii_compare_refl. Qed.

Lemma string_compare_lt_trans s1 s2 s3 :
  String.compare s1 s2 = Lt -> String.compare s2 s3 = Lt ->
  String.compare s1 s3 = Lt.
Proof.
  revert s2 s3. induction s1 as [|a s1 IH]; intros [|b s2] [|c s3]; simpl;
    try done.
  destruct (Ascii.compare a b) eqn:Hab; try done;
    destruct (Ascii.compare b c) eqn:Hbc; try done; intros H12 H23.
  - apply Ascii.compare_eq_iff in Hab as ->. rewrite Hbc. by eapply IH.
  - apply Ascii.compare_eq_iff in Hab as ->. by rewrite Hbc.
  - apply Ascii.compare_eq_iff in Hbc as <-. by rewrite Hab.
  - by rewrite (ascii_compare_lt_trans a b c).
Qed.

Lemma string_ltb_irrefl s : String.ltb s s = false.
Proof. unfold String.ltb. by rewrite string_compare_refl. Qed.

Lemma string_ltb_trans s1 s2 s3 :
  String.ltb s1 s2 = true -> String.ltb s2 s3 = true -> String.ltb s1 s3 = true.
Proof.
  unfold String.ltb.
  destruct (String.compare s1 s2) eqn:C12; try done.
  destruct (String.compare s2 s3) eqn:C23; try done.
  by rewrite (string_compare_lt_trans s1 s2 s3).
Qed.

Lemma string_compare_gt_lt s1 s2 :
  String.compare s1 s2 = Gt <-> String.compare s2 s1 = Lt.
Proof.
  rewrite (String.compare_antisym s2 s1).
  destruct (String.compare s1 s2); simpl; split; done.
Qed.

Lemma string_nltb_trans s1 s2 s3 :
  String.ltb s1 s2 = false -> String.ltb s2 s3 = false ->
  String.ltb s1 s3 = false.
Proof.
  unfold String.ltb. intros H12 H23.
  destruct (String.compare s1 s2) eqn:C12; [|done|].
  - apply String.compare_eq_iff in C12 as ->. done.
  - destruct (String.compare s2 s3) eqn:C23; [|done|].
    + apply String.compare_eq_iff in C23 as <-. by rewrite C12.
    + apply string_compare_gt_lt in C12, C23.
      pose proof (string_compare_lt_trans _ _ _ C23 C12) as C31.
      apply string_compare_gt_lt in C31. by rewrite C31.
Qed.

Lemma filter_comm {A} (P Q : A -> Prop)
    `{forall x, Decision (P x), forall x, Decision (Q x)} (l : list A) :
  filter P (filter Q l) = filter Q (filter P l).
Proof. rewrite !list_filter_filter. apply list_filter_iff. tauto. Qed.

(** Filtering commutes with the stable sort. *)
Lemma py_sorted_filter {A K} (ltb : K -> K -> bool) (key : A -> K)
    (P : A -> Prop) `{forall x, Decision (P x)} (l : list A) :
  (forall x, ltb x x = false) ->
  (forall x y z, ltb x y = true -> ltb y z = true -> ltb x z = true) ->
  (forall x y z, ltb x y = false -> ltb y z = false -> ltb x z = false) ->
  py_sorted ltb key (filter P l) = filter P (py_sorted ltb key l).
Proof.
  intros Hirr Htr Hntr. symmetry. apply py_sorted_unique; try done.
  - apply StronglySorted_filter. by apply py_sorted_sorted.
  - intros k. rewrite filter_comm, py_sorted_stable by done.
    apply filter_comm.
Qed.

(** ** More on the sampler: size, shape and order of the sample *)

Lemma range_length_stride interval n :
  1 <= interval -> 2 <= n ->
  range_length interval (n - 1) interval = (n - 2) / interval.
Proof.
  intros Hint Hn. unfold range_length.
  destruct (Z.ltb_spec 0 interval); [|lia].
  destruct (Z.leb_spec (n - 1) interval).
  - symmetry. apply Z.div_small. lia.
  - replace (n - 1 - interval - 1) with ((n - 2) + (-1) * interval) by lia.
    rewrite Z.div_add by lia. lia.
Qed.

Lemma length_range_items start stop step :
  step <> 0 ->
  Z.of_nat (length (range_items start stop step)) = range_length start stop step.
Proof.
  intros Hstep. unfold range_items. rewrite length_fmap, length_seqZ.
  apply Z2Nat.id. unfold range_length.
  destruct (Z.ltb_spec 0 step).
  - destruct (Z.leb_spec stop start); [done|].
    pose proof (Z.div_pos (stop - start - 1) step ltac:(lia) ltac:(lia)). lia.
  - destruct (Z.leb_spec start stop); [done|].
    pose proof (Z.div_pos (start - stop - 1) (- step) ltac:(lia) ltac:(lia)).
    lia.
Qed.

(** X1: the sample of [n >= 2] records at stride [interval >= 1] has
    [2 + (n - 2) / interval] elements, and as many indices. *)
Theorem sample_insights_length (insights : list Insight) (interval : Z) :
  (2 <= length insights)%nat -> 1 <= interval ->
  exists sampled indices,
    sample_insights insights interval = Ok (sampled, indices) /\
    Z.of_nat (length sampled)
      = 2 + (Z.of_nat (length insights) - 2) / interval /\
    length indices = length sampled.
Proof.
  intros Hlen Hint.
  destruct (sample_insights_long insights interval)
    as (x0 & xs & xl & _ & _ & Hxs & Hrun); [done|lia|].
  eexists _, _. split; [exact Hrun|].
  apply Forall2_length in Hxs.
  simpl. rewrite !length_app. simpl. rewrite <- Hxs. split; [|done].
  rewrite Nat2Z.inj_succ, Nat2Z.inj_add, length_range_items by lia.
  rewrite range_length_stride by lia. simpl. lia.
Qed.

Lemma sample_insights_length_witness :
  (2 <= length scores_0_24)%nat /\ 1 <= 10 /\
  exists sampled indices,
    sample_insights scores_0_24 10 = Ok (sampled, indices) /\
    Z.of_nat (length sampled)
      = 2 + (Z.of_nat (length scores_0_24) - 2) / 10 /\
    length indices = length sampled.
Proof.
  split; [vm_compute; lia|]. split; [lia|].
  apply (sample_insights_length scores_0_24 10); [vm_compute|]; lia.
Defined.







(** A long sample, with every sampled record read at its index. *)
Lemma sample_insights_long_lookups l interval :
  (2 <= length l)%nat -> interval <> 0 ->
  exists sampled indices,
    sample_insights l interval = Ok (sampled, indices) /\
    indices = 0 :: range_items interval (Z.of_nat (length l) - 1) interval
                ++ [Z.of_nat (length l) - 1] /\
    Forall2 (fun i x => sorted_by_score l !! Z.to_nat i = Some x)
      indices sampled.
Proof.
  intros Hlen Hne.
  destruct (sample_insights_long l interval)
    as (x0 & xs & xl & Hhd & Hla & Hxs & Hrun); [done..|].
  eexists _, _. split; [exact Hrun|]. split; [done|].
  constructor; [by rewrite <- head_lookup|].
  apply Forall2_app; [done|]. constructor; [|constructor].
  rewrite last_lookup, length_sorted_by_score in Hla.
  by replace (Z.to_nat (Z.of_nat (length l) - 1)) with (pred (length l)) by lia.
Qed.






(** The indices of a long sample at a positive stride: the multiples
    [0, interval, ..., m * interval] with [m = (n - 2) / interval], then
    [n - 1], which lies in the last stride. *)
Lemma stride_indices_multiples interval n :
  1 <= interval -> 2 <= n ->
  let m := (n - 2) / interval in
  0 :: range_items interval (n - 1) interval ++ [n - 1]
    = ((fun k => k * interval) <$> seqZ 0 (m + 1)) ++ [n - 1] /\
  0 <= m /\ m * interval < n - 1 <= (m + 1) * interval.
Proof.
  intros Hint Hn m. split.
  - rewrite app_comm_cons. f_equal. unfold range_items.
    rewrite range_length_stride by done. fold m.
    assert (0 <= m) by (apply Z.div_pos; lia).
    rewrite (seqZ_cons 0 (m + 1)) by lia.
    replace (seqZ (Z.succ 0) (Z.pred (m + 1))) with (seqZ (1 + 0) m)
      by (f_equal; lia).
    csimpl. f_equal.
    rewrite <- (fmap_add_seqZ 1 0 m), <- list_fmap_compose.
    apply list_fmap_ext. intros _ k _. simpl. lia.
  - pose proof (Z.div_mod (n - 2) interval ltac:(lia)) as Hdm.
    pose proof (Z.mod_pos_bound (n - 2) interval ltac:(lia)) as Hmod.
    fold m in Hdm. split; [apply Z.div_pos; lia|]. nia.
Qed.

(** X4: at a stride of at least 1, two neighbouring indices of the sample are
    at most one stride apart, and exactly one stride apart unless the second
    is the last index: no stretch of the sorted sequence longer than the
    stride goes unsampled. *)
Theorem sample_insights_gaps
    (insights sampled : list Insight) (interval : Z) (indices : list Z) :
  1 <= interval ->
  sample_insights insights interval = Ok (sampled, indices) ->
  forall (k : nat) (a b : Z),
    indices !! k = Some a -> indices !! S k = Some b ->
    0 < b - a <= interval /\
    (b <> Z.of_nat (length insights) - 1 -> b - a = interval).
Proof.
  intros Hint Hrun k a b Ha Hb.
  destruct insights as [|x [|x' l]].
  - injection Hrun as <- <-. done.
  - injection Hrun as <- <-. by destruct k.
  - remember (x :: x' :: l) as insights eqn:Hins.
    assert (2 <= length insights)%nat as Hlen by (subst; simpl; lia).
    clear Hins.
    destruct (sample_insights_long_lookups insights interval Hlen)
      as (sampled' & indices' & Hrun' & Hidx & _); [lia|].
    rewrite Hrun' in Hrun. injection Hrun as <- <-. subst indices'.
    destruct (stride_indices_multiples interval (Z.of_nat (length insights)))
      as (Heq & Hm & Hbnd); [lia..|].
    set (m := (Z.of_nat (length insights) - 2) / interval) in *.
    rewrite Heq in Ha, Hb.
    assert (length ((fun k => k * interval) <$> seqZ 0 (m + 1))
            = Z.to_nat (m + 1)) as Hmlen
      by (by rewrite length_fmap, length_seqZ).
    assert (forall j c,
      (((fun k => k * interval) <$> seqZ 0 (m + 1))
         ++ [Z.of_nat (length insights) - 1]) !! j = Some c ->
      (Z.of_nat j <= m /\ c = Z.of_nat j * interval) \/
      (Z.of_nat j = m + 1 /\ c = Z.of_nat (length insights) - 1)) as Hcases.
    { intros j c Hj. apply lookup_app_Some in Hj as [Hj|[Hge Hj]].
      - left. rewrite list_lookup_fmap in Hj.
        destruct (seqZ 0 (m + 1) !! j) as [i|] eqn:Hi; simplify_eq/=.
        apply lookup_seqZ in Hi as [-> ?]. lia.
      - right. rewrite Hmlen in Hge, Hj.
        destruct (j - Z.to_nat (m + 1))%nat as [|?] eqn:Hd; simplify_eq/=.
        lia. }
    destruct (Hcases _ _ Ha) as [[Hk ->]|[Hk ->]],
      (Hcases _ _ Hb) as [[Hk' ->]|[Hk' ->]]; nia.
Qed.

Lemma sample_insights_gaps_witness :
  1 <= 10 /\
  sample_insights scores_0_24 10
    = Ok ((fun k => insight_of_score (inject_Z k)) <$> [0; 10; 20; 24],
          [0; 10; 20; 24]) /\
  forall (k : nat) (a b : Z),
    [0; 10; 20; 24] !! k = Some a -> [0; 10; 20; 24] !! S k = Some b ->
    0 < b - a <= 10 /\
    (b <> Z.of_nat (length scores_0_24) - 1 -> b - a = 10).
Proof.
  split; [lia|]. split; [by vm_compute|].
  apply (sample_insights_gaps scores_0_24
           ((fun k => insight_of_score (inject_Z k)) <$> [0; 10; 20; 24])
           10 [0; 10; 20; 24]); [lia|by vm_compute].
Defined.

(** X5: the indices depend on the input only through its length: two inputs of
    the same length get the same indices (or the same exception), whatever
    their records. *)
Theorem sample_insights_indices_by_length
    (insights1 insights2 : list Insight) (interval : Z) :
  length insights1 = length insights2 ->
  snd <$> sample_insights insights1 interval
    = snd <$> sample_insights insights2 interval.
Proof.
  intros Hlen.
  destruct insights1 as [|x1 [|y1 l1]], insights2 as [|x2 [|y2 l2]];
    try done.
  remember (x1 :: y1 :: l1) as i1 eqn:H1.
  remember (x2 :: y2 :: l2) as i2 eqn:H2.
  assert (2 <= length i1)%nat as Hlen1 by (subst; simpl; lia).
  assert (2 <= length i2)%nat as Hlen2 by (subst; simpl; lia).
  clear H1 H2. destruct (decide (interval = 0)) as [->|Hne].
  - by rewrite !sample_insights_zero_interval.
  - destruct (sample_insights_long_lookups i1 interval Hlen1 Hne)
      as (s1 & idx1 & -> & -> & _).
    destruct (sample_insights_long_lookups i2 interval Hlen2 Hne)
      as (s2 & idx2 & -> & -> & _).
    simpl. by rewrite Hlen.
Qed.

Lemma sample_insights_indices_by_length_witness :
  length scores_5 = length (sorted_by_score scores_5) /\
  snd <$> sample_insights scores_5 2
    = snd <$> sample_insights (sorted_by_score scores_5) 2.
Proof.
  split; [reflexivity|].
  apply (sample_insights_indices_by_length scores_5 (sorted_by_score scores_5) 2).
  reflexivity.
Defined.

(** ** Loops whose state survives exceptions *)

Section ForEachSt.
Context {I A : Type} (body : I -> list A -> list A * option exn).
Context (status : I -> option exn) (R : I -> list A -> Prop).

Hypothesis body_appends : forall i acc,
  exists c, body i acc = (acc ++ c, status i) /\ (status i = None -> R i c).

Lemma for_each_st_appends items acc :
  exists recs,
    for_each_st body items acc = (acc ++ recs, first_raise status items) /\
    (first_raise status items = None ->
     exists cs, recs = concat cs /\ Forall2 R items cs).
Proof using body_appends.
  revert acc. induction items as [|i items IH]; intros acc; simpl.
  - exists []. rewrite app_nil_r. split; [done|].
    intros _. exists []. split; [done|constructor].
  - destruct (body_appends i acc) as (c & -> & Hc).
    destruct (status i) as [e|].
    + exists c. split; [done|]. discriminate.
    + destruct (IH (acc ++ c)) as (recs & -> & Hrecs).
      exists (c ++ recs). rewrite app_assoc. split; [done|].
      intros Hnone. destruct (Hrecs Hnone) as (cs & -> & Hcs).
      exists (c :: cs). split; [done|]. constructor; auto.
Qed.
End ForEachSt.


(** ** The loader *)

Section LoaderFacts.
Context `{FloatOps}.

Lemma load_insight_appends rd rn img ins acc :
  exists c,
    load_insight rd rn img ins acc = (acc ++ c, entry_status ins) /\
    (entry_status ins = None -> entry_adds rd rn img ins c).
Proof.
  unfold entry_status, entry_adds, load_insight, has_score.
  destruct ins as [| | | | |fields]; simpl;
    try (exists []; rewrite app_nil_r; split; [done|discriminate]).
  destruct (assoc "avg_scores" fields) as [v|] eqn:Hv; simpl;
    [|exists []; by rewrite app_nil_r].
  destruct v as [|b|q|s| |]; simpl;
    try (exists []; rewrite app_nil_r; split; [done|discriminate]).
  - exists []. by rewrite app_nil_r.
  - eexists [_]. split; [done|]. intros _. eexists. split; [done|].
    split_and!; try done. by eexists.
  - eexists [_]. split; [done|]. intros _. eexists. split; [done|].
    split_and!; try done. by eexists.
  - destruct (str_to_float s) as [q|] eqn:Hs; simpl.
    + eexists [_]. split; [done|]. intros _. eexists. split; [done|].
      split_and!; try done.
      eexists. split; [done|]. simpl. by rewrite Hs.
    + exists []. rewrite app_nil_r. split; [done|discriminate].
Qed.

Lemma load_item_appends rd rn item acc :
  exists recs,
    load_item rd rn item acc = (acc ++ recs, item_status item) /\
    (item_status item = None ->
     exists cs, recs = concat cs /\
       Forall2 (fun e c => entry_adds rd rn e.1 e.2 c) (item_entries item) cs).
Proof.
  destruct item as [img ins_list].
  unfold item_status, item_entries, load_item. simpl.
  destruct (py_iter ins_list) as [entries|e]; simpl.
  - destruct (for_each_st_appends _ _ _
      (load_insight_appends "" "" img) entries []) as (recs0 & -> & _).
    destruct (for_each_st_appends _ _ _
      (load_insight_appends rd rn img) entries acc) as (recs & -> & Hrecs).
    exists recs. split; [done|]. simpl. intros Hnone.
    destruct (Hrecs Hnone) as (cs & -> & Hcs).
    exists cs. split; [done|]. by apply Forall2_fmap_l.
  - exists []. rewrite app_nil_r. split; [done|discriminate].
Qed.




End LoaderFacts.

(** ** Files in the input layout are read cleanly *)

Section LayoutFacts.
Context `{FloatOps}.

Lemma first_raise_none {I} (status : I -> option exn) items :
  Forall (fun i => status i = None) items -> first_raise status items = None.
Proof. induction 1 as [|i items Hi _ IH]; simpl; [done|]. by rewrite Hi. Qed.

Lemma entry_wf_status ins : entry_wf ins -> entry_status ins = None.
Proof.
  intros (fields & -> & Hscore). unfold entry_status, load_insight. simpl.
  destruct (assoc "avg_scores" fields) as [[]|]; simpl; done.
Qed.

Lemma item_wf_status item entries :
  item.2 = JArr entries -> Forall entry_wf entries -> item_status item = None.
Proof.
  destruct item as [img ins_list]. simpl. intros -> Hwf.
  unfold item_status, load_item. simpl.
  destruct (for_each_st_appends _ _ _
    (load_insight_appends "" "" img) entries []) as (recs & -> & _).
  simpl. apply first_raise_none.
  eapply Forall_impl; [exact Hwf|]. apply entry_wf_status.
Qed.

Lemma file_wf_reads_cleanly data : file_wf data -> reads_cleanly data.
Proof.
  intros (items & -> & Hwf). unfold reads_cleanly, load_file. simpl.
  destruct (for_each_st_appends _ _ _
    (load_item_appends "" "") items []) as (recs & -> & _).
  simpl. apply first_raise_none.
  eapply Forall_impl; [exact Hwf|].
  intros item (entries & Hitem & Hentries). by eapply item_wf_status.
Qed.
End LayoutFacts.

(** A score that [float] rejects ends the walk of its file: the records
    appended before it stay, the entries after it are not read. *)
Example load_file_bad_score :
  @load_file exact_floats "/runs/run_0" "run_0" (Ok file_bad_score) [] =
    ([mkInsight (3#1) (JStr "text") "/runs/run_0/viz/verified/img1.png"
        "run_0" "img1.png"], Some ValueError).
Proof. reflexivity. Qed.



(** ** Loading only reads the listing and only prints *)

Lemma log_to_nil w : log_to [] w = w.
Proof. destruct w. unfold log_to. simpl. by rewrite app_nil_r. Qed.

Lemma log_to_app l1 l2 w : log_to l2 (log_to l1 w) = log_to (l1 ++ l2) w.
Proof. unfold log_to. simpl. by rewrite app_assoc. Qed.

Section PipelineFacts.
Context `{FloatOps}.

Lemma load_run_logs runs_root e acc :
  exists acc' lines,
    forall w, load_run runs_root e acc w = (Ok acc', log_to lines w).
Proof.
  unfold load_run.
  destruct (negb (entry_isdir e) || negb (String.prefix "run_" (entry_name e)));
    [exists acc, []; intros w; by rewrite log_to_nil|].
  destruct (entry_has_error_json e);
    [exists acc, []; intros w; by rewrite log_to_nil|].
  destruct (entry_insights e) as [file|];
    [|exists acc, []; intros w; by rewrite log_to_nil].
  destruct (load_file _ _ file acc) as [acc' [ex|]].
  - by eexists acc', [_].
  - exists acc', []. intros w. by rewrite log_to_nil.
Qed.

Lemma load_runs_logs runs_root entries acc :
  exists acc' lines,
    forall w,
      for_each_prog (load_run runs_root) entries acc w
        = (Ok acc', log_to lines w).
Proof.
  revert acc. induction entries as [|e entries IH]; intros acc.
  - exists acc, []. intros w. by rewrite log_to_nil.
  - destruct (load_run_logs runs_root e acc) as (acc1 & l1 & Hrun).
    destruct (IH acc1) as (acc2 & l2 & Hloop).
    exists acc2, (l1 ++ l2). intros w. simpl. unfold mbind, prog_bind.
    by rewrite Hrun, Hloop, log_to_app.
Qed.

Lemma load_all_insights_logs runs_root (ls : string -> result (list DirEntry)) :
  exists r lines,
    forall w, w_listdir w = ls ->
      load_all_insights runs_root w = (r, log_to lines w).
Proof.
  unfold load_all_insights, mbind, prog_bind, listdir.
  destruct (ls runs_root) as [entries|e] eqn:Hls.
  - destruct (load_runs_logs runs_root
      (py_sorted String.ltb entry_name entries) []) as (acc & lines & Hloop).
    exists (Ok acc), lines. intros w <-. by rewrite Hls, Hloop.
  - exists (Raise e), []. intros w <-. by rewrite Hls, log_to_nil.
Qed.

End PipelineFacts.


(** With records, the document is written under [data/]. *)
Example process_dataset_writes :
  is_Some
    (w_files (@process_dataset exact_floats "k" config_runs
                (world_of listing_ok)).2
       !! "/home/shuyu/projects/insight-scaling-webpage/data/interactive_k.json")
  /\ w_files (@process_dataset exact_floats "k" config_runs
                (world_of listing_null)).2 = ∅.
Proof. split; [vm_compute; eauto | reflexivity]. Qed.

(** ** More on the loader: what each run adds, independently *)

Section ForEachStAcc.
Context {I A : Type} (body : I -> list A -> list A * option exn).

(** The body only appends, and neither what it appends nor whether it
    raises depends on the records so far. *)
Hypothesis body_acc : forall i acc,
  body i acc = (acc ++ (body i []).1, (body i []).2).

Lemma for_each_st_acc items acc :
  for_each_st body items acc
    = (acc ++ (for_each_st body items []).1, (for_each_st body items []).2).
Proof using body_acc.
  revert acc. induction items as [|i items IH]; intros acc; simpl.
  - by rewrite app_nil_r.
  - rewrite (body_acc i acc). destruct (body i []) as [c [e|]]; simpl.
    + done.
    + rewrite (IH (acc ++ c)), (IH c). simpl. by rewrite app_assoc.
Qed.

Lemma for_each_st_from (P : I -> A -> Prop) items :
  (forall i, Forall (P i) (body i []).1) ->
  Forall (fun r => exists i, i ∈ items /\ P i r) (for_each_st body items []).1.
Proof using body_acc.
  intros HP. induction items as [|i items IH]; simpl; [constructor|].
  specialize (HP i). destruct (body i []) as [c [e|]] eqn:Hc; simpl in *.
  - eapply Forall_impl; [exact HP|]. intros r Hr. exists i. split; [left|done].
  - rewrite for_each_st_acc. simpl. apply Forall_app. split.
    + eapply Forall_impl; [exact HP|]. intros r Hr.
      exists i. split; [left|done].
    + eapply Forall_impl; [exact IH|]. intros r (j & Hj & Hr).
      exists j. split; [by right|done].
Qed.

(** The loop stops at the first item that raises: what comes after it is
    not visited, what was appended before it stays. *)
Lemma for_each_st_stops pre bad post acc e :
  Forall (fun i => (body i []).2 = None) pre ->
  (body bad []).2 = Some e ->
  for_each_st body (pre ++ bad :: post) acc
    = ((for_each_st body (pre ++ [bad]) acc).1, Some e) /\
  (for_each_st body pre acc).2 = None.
Proof using body_acc.
  intros Hpre Hbad. revert acc.
  induction Hpre as [|i pre Hi _ IH]; intros acc; simpl.
  - rewrite (body_acc bad acc), Hbad. done.
  - rewrite (body_acc i acc), Hi. apply IH.
Qed.
End ForEachStAcc.

Section LoaderMore.
Context `{FloatOps}.

Lemma load_insight_acc rd rn img ins acc :
  load_insight rd rn img ins acc
    = (acc ++ (load_insight rd rn img ins []).1,
       (load_insight rd rn img ins []).2).
Proof.
  unfold load_insight.
  destruct (dict_get "avg_scores" JNull ins) as [score|e]; simpl;
    [|by rewrite app_nil_r].
  destruct (dict_get "insight" (JStr "") ins) as [text|e]; simpl;
    [|by rewrite app_nil_r].
  destruct (is_none score); simpl; [by rewrite app_nil_r|].
  destruct (py_float score) as [s|e]; simpl; [done|by rewrite app_nil_r].
Qed.

(** An entry that raises adds nothing. *)
Lemma load_insight_raises_nothing rd rn img ins e :
  (load_insight rd rn img ins []).2 = Some e ->
  (load_insight rd rn img ins []).1 = [].
Proof. unfold load_insight. by case_match. Qed.

Lemma load_insight_status rd rn img ins :
  (load_insight rd rn img ins []).2 = entry_status ins.
Proof.
  destruct (load_insight_appends rd rn img ins []) as (c & Hc & _).
  by rewrite Hc.
Qed.

(** What an entry adds is at most one record, and then the entry has a
    score and the record carries the entry's data. *)
Lemma load_insight_from rd rn img ins :
  Forall (fun r => has_score ins = true /\ entry_adds rd rn img ins [r])
    (load_insight rd rn img ins []).1.
Proof.
  destruct (load_insight_appends rd rn img ins []) as (c & Hc & Hadds).
  rewrite Hc. simpl.
  destruct (entry_status ins) as [e|] eqn:Hst.
  - pose proof (load_insight_raises_nothing rd rn img ins e) as Hnil.
    rewrite load_insight_status, Hc in Hnil. simpl in Hnil.
    rewrite Hnil by done. constructor.
  - specialize (Hadds eq_refl). unfold entry_adds in *.
    destruct (has_score ins); [|subst c; constructor].
    destruct Hadds as (r & -> & ?). repeat constructor; eauto.
Qed.

Lemma load_item_acc rd rn item acc :
  load_item rd rn item acc
    = (acc ++ (load_item rd rn item []).1, (load_item rd rn item []).2).
Proof.
  destruct item as [img ins_list]. unfold load_item.
  destruct (py_iter ins_list) as [entries|e]; [|by rewrite app_nil_r].
  apply for_each_st_acc. intros. apply load_insight_acc.
Qed.

Lemma load_item_from rd rn item :
  Forall (fun r => exists ins,
            (item.1, ins) ∈ item_entries item /\ has_score ins = true /\
            entry_adds rd rn item.1 ins [r])
    (load_item rd rn item []).1.
Proof.
  destruct item as [img ins_list]. unfold load_item, item_entries. simpl.
  destruct (py_iter ins_list) as [entries|e]; [|constructor].
  eapply Forall_impl.
  - apply (for_each_st_from _ (fun i acc => load_insight_acc rd rn img i acc)
             (fun ins r => has_score ins = true /\ entry_adds rd rn img ins [r])).
    intros ins. apply load_insight_from.
  - intros r (ins & Hin & Hs & Hr). exists ins. split; [|done].
    apply list_elem_of_fmap. by exists ins.
Qed.

Lemma load_file_acc rd rn file acc :
  load_file rd rn file acc
    = (acc ++ (load_file rd rn file []).1, (load_file rd rn file []).2).
Proof.
  unfold load_file.
  destruct (file ≫= py_items) as [items|e]; [|by rewrite app_nil_r].
  apply for_each_st_acc. intros. apply load_item_acc.
Qed.

Lemma load_file_from rd rn file :
  Forall (fun r => exists data ins,
            file = Ok data /\
            (original_path r, ins) ∈ file_entries data /\
            has_score ins = true /\
            entry_adds rd rn (original_path r) ins [r])
    (load_file rd rn file []).1.
Proof.
  unfold load_file. destruct file as [data|e]; simpl; [|constructor].
  destruct (py_items data) as [items|e] eqn:Hitems; [|constructor].
  eapply Forall_impl.
  - apply (for_each_st_from _ (fun i acc => load_item_acc rd rn i acc)
             (fun item r => exists ins,
                (item.1, ins) ∈ item_entries item /\ has_score ins = true /\
                entry_adds rd rn item.1 ins [r])).
    intros item. apply load_item_from.
  - intros r (item & Hitem & ins & Hins & Hs & Hr).
    assert (original_path r = item.1) as Hpath.
    { unfold entry_adds in Hr. rewrite Hs in Hr.
      destruct Hr as (r' & [= <-] & _ & _ & _ & _ & Hp). done. }
    exists data, ins. rewrite Hpath. split_and!; try done.
    unfold file_entries. rewrite Hitems.
    apply list_elem_of_bind. by exists item.
Qed.

(** A visited name adds [run_outcome]: the same records and the same
    warning whatever was loaded before and whatever the world. *)
Lemma load_run_outcome runs_root e acc w :
  load_run runs_root e acc w
    = (Ok (acc ++ (run_outcome runs_root e).1),
       log_to (run_outcome runs_root e).2 w).
Proof.
  unfold load_run, run_outcome, run_qualifies.
  destruct (entry_isdir e); simpl; [|by rewrite app_nil_r, log_to_nil].
  destruct (String.prefix "run_" (entry_name e)); simpl;
    [|by rewrite app_nil_r, log_to_nil].
  destruct (entry_has_error_json e); simpl;
    [by rewrite app_nil_r, log_to_nil|].
  destruct (entry_insights e) as [file|]; [|by rewrite app_nil_r, log_to_nil].
  rewrite load_file_acc.
  destruct (load_file _ _ file []) as [recs [ex|]]; simpl; [done|].
  by rewrite log_to_nil.
Qed.

Lemma load_runs_outcome runs_root entries acc w :
  for_each_prog (load_run runs_root) entries acc w
    = (Ok (acc ++ entries ≫= (fun e => (run_outcome runs_root e).1)),
       log_to (entries ≫= (fun e => (run_outcome runs_root e).2)) w).
Proof.
  revert acc w. induction entries as [|e entries IH]; intros acc w; simpl.
  - by rewrite app_nil_r, log_to_nil.
  - unfold mbind at 1, prog_bind. rewrite load_run_outcome, IH.
    by rewrite log_to_app, app_assoc.
Qed.

(** Loading is the concatenation, in the order of the run names, of what
    each listed name adds on its own. *)
Lemma load_all_insights_outcome runs_root entries w :
  w_listdir w runs_root = Ok entries ->
  load_all_insights runs_root w
    = (Ok (py_sorted String.ltb entry_name entries
             ≫= (fun e => (run_outcome runs_root e).1)),
       log_to (py_sorted String.ltb entry_name entries
                 ≫= (fun e => (run_outcome runs_root e).2)) w).
Proof.
  intros Hls. unfold load_all_insights, mbind at 1, prog_bind, listdir.
  rewrite Hls. apply (load_runs_outcome runs_root _ [] w).
Qed.
End LoaderMore.

Lemma bind_filter_nil {A B} (P : A -> Prop) `{forall x, Decision (P x)}
    (f : A -> list B) (l : list A) :
  (forall x, ~ P x -> f x = []) -> l ≫= f = filter P l ≫= f.
Proof.
  intros Hf. induction l as [|x l IH]; [done|].
  rewrite filter_cons. case_decide; csimpl; [by rewrite IH|].
  by rewrite Hf, IH.
Qed.

Section LoaderResults.
Context `{FloatOps}.

Lemma run_outcome_skipped runs_root e :
  run_qualifies e <> true -> run_outcome runs_root e = ([], []).
Proof. unfold run_outcome. by destruct (run_qualifies e). Qed.

Lemma load_all_insights_listing_raises w runs_root e :
  w_listdir w runs_root = Raise e ->
  load_all_insights runs_root w = (Raise e, w).
Proof.
  intros Hls. unfold load_all_insights, mbind, prog_bind, listdir.
  by rewrite Hls.
Qed.

(** X6: whatever the files hold, loading fails only when the runs directory
    cannot be listed, and then with the exception of the listing.  Otherwise
    it returns records and changes nothing but the console, where it prints
    only warnings about insights files of visited runs. *)
Theorem load_all_insights_only_warns (w : World) (runs_root : string) :
  match w_listdir w runs_root with
  | Ok entries =>
      exists recs lines,
        load_all_insights runs_root w = (Ok recs, log_to lines w) /\
        Forall (is_read_warning runs_root entries) lines
  | Raise e => load_all_insights runs_root w = (Raise e, w)
  end.
Proof.
  destruct (w_listdir w runs_root) as [entries|e] eqn:Hls.
  - eexists _, _. split; [by apply load_all_insights_outcome|].
    apply Forall_forall. intros line Hline.
    apply list_elem_of_bind in Hline as (e & Hline & He).
    rewrite py_sorted_perm in He.
    destruct (decide (run_qualifies e = true)) as [Hq|Hq];
      [|rewrite run_outcome_skipped in Hline by done; by inversion Hline].
    unfold run_outcome in Hline. rewrite Hq in Hline.
    destruct (entry_insights e) as [file|]; [|by inversion Hline].
    destruct (load_file _ _ file []) as [recs [ex|]]; simpl in Hline;
      [|by inversion Hline].
    apply list_elem_of_singleton in Hline as ->. by exists e, ex.
  - by apply load_all_insights_listing_raises.
Qed.

(** X7: every loaded record comes from an entry with a present, non-null
    [avg_scores] in the parsed file of a visited run, and carries that
    entry's score, text and paths; this needs no assumption on the files. *)
Theorem load_all_insights_provenance
    (w w' : World) (runs_root : string) (entries : list DirEntry)
    (recs : list Insight) :
  w_listdir w runs_root = Ok entries ->
  load_all_insights runs_root w = (Ok recs, w') ->
  Forall (record_from runs_root entries) recs.
Proof.
  intros Hls Hrun.
  rewrite (load_all_insights_outcome runs_root entries w Hls) in Hrun.
  injection Hrun as <- _.
  apply Forall_forall. intros r Hr.
  apply list_elem_of_bind in Hr as (e & Hr & He).
  rewrite py_sorted_perm in He.
  destruct (decide (run_qualifies e = true)) as [Hq|Hq];
    [|rewrite run_outcome_skipped in Hr by done; by inversion Hr].
  unfold run_outcome in Hr. rewrite Hq in Hr.
  destruct (entry_insights e) as [file|] eqn:Hfile; [|by inversion Hr].
  pose proof (load_file_from (path_join runs_root (entry_name e))
                (entry_name e) file) as Hfrom.
  destruct (load_file _ _ file []) as [frecs raised]. simpl in Hr, Hfrom.
  eapply Forall_forall in Hfrom; [|exact Hr].
  destruct Hfrom as (data & ins & -> & Hin & Hs & Hadds).
  assert (run_name r = entry_name e) as Hname.
  { unfold entry_adds in Hadds. rewrite Hs in Hadds.
    by destruct Hadds as (r' & [= <-] & _ & _ & _ & ? & _). }
  exists e, data, ins. split_and!; try done.
  unfold contributes. by rewrite Hname.
Qed.

(** X8: names that are not visited (not a directory, not named [run_...], or
    holding [error.json]) have no influence: two listings with the same
    visited names give the same records and the same printed lines. *)
Theorem load_all_insights_ignores_skipped
    (w1 w2 : World) (runs_root : string) (entries1 entries2 : list DirEntry) :
  w_listdir w1 runs_root = Ok entries1 ->
  w_listdir w2 runs_root = Ok entries2 ->
  filter (fun e => run_qualifies e = true) entries1
    = filter (fun e => run_qualifies e = true) entries2 ->
  exists recs lines,
    load_all_insights runs_root w1 = (Ok recs, log_to lines w1) /\
    load_all_insights runs_root w2 = (Ok recs, log_to lines w2).
Proof.
  intros Hls1 Hls2 Hfilter.
  rewrite (load_all_insights_outcome runs_root entries1 w1 Hls1).
  rewrite (load_all_insights_outcome runs_root entries2 w2 Hls2).
  assert (forall (B : Type) (f : DirEntry -> list B) entries,
    (forall e, run_qualifies e <> true -> f e = []) ->
    py_sorted String.ltb entry_name entries ≫= f
      = py_sorted String.ltb entry_name
          (filter (fun e => run_qualifies e = true) entries) ≫= f) as Hskip.
  { intros B f entries Hf.
    rewrite (bind_filter_nil (fun e => run_qualifies e = true)) by done.
    rewrite (py_sorted_filter String.ltb entry_name
               (fun e => run_qualifies e = true) entries
               string_ltb_irrefl string_ltb_trans string_nltb_trans).
    done. }
  eexists _, _. split; [done|].
  rewrite (Hskip _ _ entries1), (Hskip _ _ entries1), Hfilter,
    <- !Hskip; try done.
  all: intros e He; by rewrite run_outcome_skipped.
Qed.
End LoaderResults.

Section LoaderOrder.
Context `{FloatOps}.

Lemma run_outcome_names runs_root e r :
  r ∈ (run_outcome runs_root e).1 -> run_name r = entry_name e.
Proof.
  intros Hr.
  destruct (decide (run_qualifies e = true)) as [Hq|Hq];
    [|rewrite run_outcome_skipped in Hr by done; by inversion Hr].
  unfold run_outcome in Hr. rewrite Hq in Hr.
  destruct (entry_insights e) as [file|]; [|by inversion Hr].
  pose proof (load_file_from (path_join runs_root (entry_name e))
                (entry_name e) file) as Hfrom.
  destruct (load_file _ _ file []) as [frecs raised]. simpl in Hr, Hfrom.
  eapply Forall_forall in Hfrom; [|exact Hr].
  destruct Hfrom as (data & ins & _ & _ & Hs & Hadds).
  unfold entry_adds in Hadds. rewrite Hs in Hadds.
  by destruct Hadds as (r' & [= <-] & _ & _ & _ & ? & _).
Qed.

(** X9: the loaded records come run by run, in ascending order of the run
    names, whatever the order of the listing. *)
Theorem load_all_insights_run_order
    (w w' : World) (runs_root : string) (entries : list DirEntry)
    (recs : list Insight) :
  w_listdir w runs_root = Ok entries ->
  load_all_insights runs_root w = (Ok recs, w') ->
  StronglySorted run_name_le recs.
Proof.
  intros Hls Hrun.
  rewrite (load_all_insights_outcome runs_root entries w Hls) in Hrun.
  injection Hrun as <- _.
  pose proof (py_sorted_sorted String.ltb entry_name string_ltb_irrefl
                string_ltb_trans string_nltb_trans entries) as Hsorted.
  induction Hsorted as [|e es Hes IH He]; csimpl; [constructor|].
  apply StronglySorted_app. split_and!; [|clear IH He|exact IH].
  - intros r1 r2 Hr1 Hr2.
    apply list_elem_of_bind in Hr2 as (e2 & Hr2 & He2).
    apply run_outcome_names in Hr1, Hr2.
    eapply Forall_forall in He; [|exact He2].
    unfold run_name_le. rewrite Hr1, Hr2. exact He.
  - assert (Forall (fun r => run_name r = entry_name e)
              (run_outcome runs_root e).1) as Hnames
      by (apply Forall_forall; intros r; apply run_outcome_names).
    induction Hnames as [|r rs Hr Hrs IHrs]; constructor; [done|].
    eapply Forall_impl; [exact Hrs|]. intros r2 Hr2.
    unfold run_name_le. rewrite Hr, Hr2. apply string_ltb_irrefl.
Qed.
End LoaderOrder.

Lemma for_each_st_app {I S} (body : I -> S -> S * option exn) l1 l2 s :
  for_each_st body (l1 ++ l2) s =
    match for_each_st body l1 s with
    | (s', None) => for_each_st body l2 s'
    | (s', Some e) => (s', Some e)
    end.
Proof.
  revert s. induction l1 as [|i l1 IH]; intros s; simpl; [done|].
  destruct (body i s) as [s' [e|]]; [done|apply IH].
Qed.

Lemma for_each_st_cons {I S} (body : I -> S -> S * option exn) i items s :
  for_each_st body (i :: items) s =
    match body i s with
    | (s', None) => for_each_st body items s'
    | (s', Some e) => (s', Some e)
    end.
Proof. done. Qed.

Lemma for_each_st_clean {I A} (body : I -> list A -> list A * option exn)
    items acc :
  (forall i acc, body i acc = (acc ++ (body i []).1, (body i []).2)) ->
  Forall (fun i => (body i []).2 = None) items ->
  (for_each_st body items acc).2 = None.
Proof.
  intros Hacc Hitems. revert acc.
  induction Hitems as [|i items Hi _ IH]; intros acc; simpl; [done|].
  rewrite (Hacc i acc), Hi. apply IH.
Qed.

Section LoaderFailure.
Context `{FloatOps}.

Lemma load_item_status rd rn item :
  (load_item rd rn item []).2 = item_status item.
Proof.
  destruct (load_item_appends rd rn item []) as (c & Hc & _).
  by rewrite Hc.
Qed.

(** An image whose list holds a failing entry: the entries before it are
    read, the failing one and those after it add nothing. *)
Lemma load_item_stops rd rn img pre bad post acc e :
  Forall (fun ins => entry_status ins = None) pre ->
  entry_status bad = Some e ->
  load_item rd rn (img, JArr (pre ++ bad :: post)) acc
    = ((load_item rd rn (img, JArr pre) acc).1, Some e) /\
  (load_item rd rn (img, JArr pre) acc).2 = None.
Proof.
  intros Hpre Hbad. unfold load_item. simpl.
  assert ((for_each_st (load_insight rd rn img) pre acc).2 = None) as Hclean.
  { apply for_each_st_clean; [intros; apply load_insight_acc|].
    eapply Forall_impl; [exact Hpre|]. intros ins Hins.
    by rewrite load_insight_status. }
  split; [|done]. rewrite for_each_st_app.
  destruct (for_each_st (load_insight rd rn img) pre acc) as [s st].
  simpl in Hclean. subst st. simpl.
  rewrite load_insight_acc, load_insight_status, Hbad.
  rewrite (load_insight_raises_nothing rd rn img bad e)
    by (by rewrite load_insight_status).
  by rewrite app_nil_r.
Qed.

(** X10: the walk of a file ends at its first failing entry: the records of the
    entries before it are kept, and nothing that follows in the file is
    read, neither the rest of that image's list nor the later images. *)
Theorem load_file_stops_at_failure
    (rd rn img : string) (items_pre items_post : list (string * json))
    (pre post : list json) (bad : json) (acc : list Insight) (e : exn) :
  Forall (fun item => item_status item = None) items_pre ->
  Forall (fun ins => entry_status ins = None) pre ->
  entry_status bad = Some e ->
  load_file rd rn
    (Ok (JObj (items_pre ++ (img, JArr (pre ++ bad :: post)) :: items_post)))
    acc
  = ((load_file rd rn (Ok (JObj (items_pre ++ [(img, JArr pre)]))) acc).1,
     Some e).
Proof.
  intros Hitems Hpre Hbad. unfold load_file. simpl.
  assert ((for_each_st (load_item rd rn) items_pre acc).2 = None) as Hclean.
  { apply for_each_st_clean; [intros; apply load_item_acc|].
    eapply Forall_impl; [exact Hitems|]. intros item Hitem.
    by rewrite load_item_status. }
  rewrite !for_each_st_app.
  destruct (for_each_st (load_item rd rn) items_pre acc) as [s st].
  simpl in Hclean. subst st. cbv beta iota.
  rewrite !for_each_st_cons.
  destruct (load_item_stops rd rn img pre bad post s e Hpre Hbad)
    as [-> Hnone].
  destruct (load_item rd rn (img, JArr pre) s) as [s' st]. simpl in *.
  by subst st.
Qed.
End LoaderFailure.

Lemma load_file_stops_at_failure_witness :
  Forall (fun item => @item_status exact_floats item = None)
    [("img1.png", JArr [entry_obj (JNum (3#1))])] /\
  Forall (fun ins => @entry_status exact_floats ins = None)
    [entry_obj (JNum (5#1))] /\
  @entry_status exact_floats (entry_obj (JStr "abc")) = Some ValueError /\
  @load_file exact_floats "/runs/run_0" "run_0"
    (Ok (JObj ([("img1.png", JArr [entry_obj (JNum (3#1))])]
               ++ ("img2.png",
                   JArr ([entry_obj (JNum (5#1))]
                         ++ entry_obj (JStr "abc") :: [entry_obj (JNum (7#1))]))
               :: [("img3.png", JArr [entry_obj (JNum (9#1))])])))
    []
  = ((@load_file exact_floats "/runs/run_0" "run_0"
        (Ok (JObj ([("img1.png", JArr [entry_obj (JNum (3#1))])]
                   ++ [("img2.png", JArr [entry_obj (JNum (5#1))])])))
        []).1,
     Some ValueError).
Proof.
  assert (Forall (fun item => @item_status exact_floats item = None)
            [("img1.png", JArr [entry_obj (JNum (3#1))])]) as H1
    by (by repeat constructor).
  assert (Forall (fun ins => @entry_status exact_floats ins = None)
            [entry_obj (JNum (5#1))]) as H2 by (by repeat constructor).
  assert (@entry_status exact_floats (entry_obj (JStr "abc"))
          = Some ValueError) as H3 by reflexivity.
  split; [exact H1|]. split; [exact H2|]. split; [exact H3|].
  exact (@load_file_stops_at_failure exact_floats "/runs/run_0" "run_0"
           "img2.png" _ _ _ _ _ [] ValueError H1 H2 H3).
Defined.

Lemma load_all_insights_provenance_witness :
  w_listdir (world_of listing_mixed) "/runs" = Ok listing_mixed /\
  @load_all_insights exact_floats "/runs" (world_of listing_mixed)
    = (Ok loaded_mixed, world_of listing_mixed) /\
  Forall (@record_from exact_floats "/runs" listing_mixed) loaded_mixed.
Proof.
  assert (@load_all_insights exact_floats "/runs" (world_of listing_mixed)
          = (Ok loaded_mixed, world_of listing_mixed)) as Hrun by reflexivity.
  split; [reflexivity|]. split; [exact Hrun|].
  exact (@load_all_insights_provenance exact_floats (world_of listing_mixed)
           (world_of listing_mixed) "/runs" listing_mixed loaded_mixed
           eq_refl Hrun).
Defined.

Lemma load_all_insights_ignores_skipped_witness :
  w_listdir (world_of listing_mixed) "/runs" = Ok listing_mixed /\
  w_listdir (world_of listing_visited) "/runs" = Ok listing_visited /\
  filter (fun e => run_qualifies e = true) listing_mixed
    = filter (fun e => run_qualifies e = true) listing_visited /\
  exists recs lines,
    @load_all_insights exact_floats "/runs" (world_of listing_mixed)
      = (Ok recs, log_to lines (world_of listing_mixed)) /\
    @load_all_insights exact_floats "/runs" (world_of listing_visited)
      = (Ok recs, log_to lines (world_of listing_visited)).
Proof.
  split; [reflexivity|]. split; [reflexivity|]. split; [reflexivity|].
  exact (@load_all_insights_ignores_skipped exact_floats
           (world_of listing_mixed) (world_of listing_visited) "/runs"
           listing_mixed listing_visited eq_refl eq_refl eq_refl).
Defined.

Lemma load_all_insights_run_order_witness :
  w_listdir (world_of listing_mixed) "/runs" = Ok listing_mixed /\
  @load_all_insights exact_floats "/runs" (world_of listing_mixed)
    = (Ok loaded_mixed, world_of listing_mixed) /\
  StronglySorted run_name_le loaded_mixed.
Proof.
  assert (@load_all_insights exact_floats "/runs" (world_of listing_mixed)
          = (Ok loaded_mixed, world_of listing_mixed)) as Hrun by reflexivity.
  split; [reflexivity|]. split; [exact Hrun|].
  exact (@load_all_insights_run_order exact_floats (world_of listing_mixed)
           (world_of listing_mixed) "/runs" listing_mixed loaded_mixed
           eq_refl Hrun).
Defined.

(** ** More on [process_dataset]: the curve statistics *)





(** ** More on [process_dataset]: the written document *)

Section DocumentFacts.
Context `{FloatOps}.



End DocumentFacts.


(** ** Exceptions that leave [process_dataset] and [main] *)

Lemma keeps_listdir_ret {A} (a : A) : keeps_listdir (mret a).
Proof. done. Qed.

Lemma keeps_listdir_bind {A B} (m : prog A) (f : A -> prog B) :
  keeps_listdir m -> (forall a, keeps_listdir (f a)) -> keeps_listdir (m ≫= f).
Proof.
  intros Hm Hf w. unfold mbind, prog_bind. specialize (Hm w).
  destruct (m w) as [[a|e] w1]; simpl in *; [|done].
  by rewrite Hf.
Qed.

Lemma keeps_listdir_print l : keeps_listdir (print l).
Proof. done. Qed.

Lemma keeps_listdir_makedirs p : keeps_listdir (makedirs p).
Proof. intros w. unfold makedirs. by case_match. Qed.

Lemma keeps_listdir_copy2 src dst : keeps_listdir (copy2 src dst).
Proof. intros w. unfold copy2. by repeat case_match. Qed.

Lemma keeps_listdir_write_json p doc : keeps_listdir (write_json p doc).
Proof. intros w. unfold write_json. by case_match. Qed.

Lemma keeps_listdir_for_each {I S} (body : I -> S -> prog S) items s :
  (forall i s, keeps_listdir (body i s)) ->
  keeps_listdir (for_each_prog body items s).
Proof.
  intros Hbody. revert s. induction items as [|i items IH]; intros s; simpl.
  - apply keeps_listdir_ret.
  - apply keeps_listdir_bind; [apply Hbody|apply IH].
Qed.

Lemma pbind_run {A B} (m : prog A) (f : A -> prog B) w :
  (m ≫= f) w =
    match m w with
    | (Ok a, w') => f a w'
    | (Raise e, w') => (Raise e, w')
    end.
Proof. done. Qed.

Lemma print_run l w : print l w = (Ok tt, log_to [l] w).
Proof. done. Qed.

Section RaiseFacts.
Context `{FloatOps}.

Lemma keeps_listdir_load runs_root : keeps_listdir (load_all_insights runs_root).
Proof.
  intros w.
  destruct (load_all_insights_logs runs_root (w_listdir w))
    as (r & lines & Hlogs).
  by rewrite Hlogs.
Qed.

Lemma keeps_listdir_emit key dir item sd :
  keeps_listdir (emit_sample key dir item sd).
Proof.
  destruct item as [i [ins idx]]. unfold emit_sample.
  apply keeps_listdir_bind; [done|]. intros found.
  apply keeps_listdir_bind; [|intros; apply keeps_listdir_ret].
  destruct found; [apply keeps_listdir_copy2|apply keeps_listdir_print].
Qed.

Lemma keeps_listdir_process_dataset key config :
  keeps_listdir (process_dataset key config).
Proof.
  unfold process_dataset.
  repeat (apply keeps_listdir_bind;
          [first [apply keeps_listdir_print | apply keeps_listdir_makedirs
                 | apply keeps_listdir_load]|intros]).
  case_match; [apply keeps_listdir_print|].
  apply keeps_listdir_bind; [done|]. intros [sampled indices].
  apply keeps_listdir_bind; [apply keeps_listdir_print|]. intros _.
  apply keeps_listdir_bind;
    [apply keeps_listdir_for_each; intros; apply keeps_listdir_emit|].
  intros sampled_data.
  apply keeps_listdir_bind; [apply keeps_listdir_write_json|]. intros _.
  apply keeps_listdir_bind; [apply keeps_listdir_print|].
  intros _. apply keeps_listdir_print.
Qed.

(** A runs directory that cannot be listed makes [process_dataset] raise. *)
Lemma process_dataset_listing_raises key config w e :
  w_listdir w (cfg_runs_path config) = Raise e ->
  exists e' w', process_dataset key config w = (Raise e', w').
Proof.
  intros Hls. unfold process_dataset.
  unfold mbind at 1 2 3 4 5 6 7, prog_bind, print. simpl.
  destruct (makedirs _ _) as [[[]|e1] w1] eqn:Hm1; [|by eauto].
  destruct (makedirs _ w1) as [[[]|e2] w2] eqn:Hm2; [|by eauto].
  assert (w_listdir w2 = w_listdir w) as Hl.
  { pose proof (keeps_listdir_makedirs
        (path_join OUTPUT_BASE ("img/interactive_" +:+ key)) w1) as H2.
    rewrite Hm2 in H2.
    pose proof (keeps_listdir_makedirs (path_join OUTPUT_BASE "data")
      (log_to [LogBanner]
        (log_to [LogProcessing (cfg_display_name config) key]
           (log_to [LogBanner] w)))) as H1.
    rewrite Hm1 in H1. simpl in *. congruence. }
  simpl.
  rewrite (load_all_insights_listing_raises _ _ e); [eauto|].
  simpl. by rewrite Hl.
Qed.



(** The loop of [main] over the datasets raises as soon as it reaches a
    dataset that raises; the listings stay as they are on the way. *)
Lemma datasets_loop_raises (datasets : list (string * DatasetConfig))
    key config w e :
  (key, config) ∈ datasets ->
  w_listdir w (cfg_runs_path config) = Raise e ->
  exists e' w',
    for_each_prog (fun '(dataset_key, config) _ =>
                     process_dataset dataset_key config) datasets tt w
      = (Raise e', w').
Proof.
  intros Hin Hls. revert w Hls.
  induction datasets as [|[k c] datasets IH]; intros w Hls;
    [by inversion Hin|].
  simpl. unfold mbind at 1, prog_bind.
  pose proof (keeps_listdir_process_dataset k c w) as Hkeep.
  destruct (process_dataset k c w) as [[[]|e1] w1] eqn:Hrun; [|by eauto].
  apply elem_of_cons in Hin as [[= -> ->]|Hin].
  - destruct (process_dataset_listing_raises k c w e Hls) as (e' & w' & Hr).
    congruence.
  - apply IH; [done|]. simpl in Hkeep. by rewrite Hkeep.
Qed.

(** X15: one dataset whose runs directory cannot be listed ends the whole batch
    with an exception: [main] does not return normally. *)
Theorem main_raises_on_listing_failure
    (w : World) (dataset_key : string) (config : DatasetConfig) (e : exn) :
  (dataset_key, config) ∈ DATASETS ->
  w_listdir w (cfg_runs_path config) = Raise e ->
  exists e' w', main w = (Raise e', w').
Proof.
  intros Hin Hls. unfold main.
  rewrite pbind_run, print_run. cbv beta iota.
  destruct (datasets_loop_raises DATASETS dataset_key config
              (log_to [LogText "Extracting interactive data for all datasets..."] w)
              e Hin Hls) as (e' & w' & Hloop).
  rewrite pbind_run, Hloop. eauto.
Qed.
End RaiseFacts.



Lemma main_raises_on_listing_failure_witness :
  ("diabetes", config_diabetes) ∈ DATASETS /\
  w_listdir (world_of listing_ok) (cfg_runs_path config_diabetes)
    = Raise FileNotFoundError /\
  exists e' w', @main exact_floats (world_of listing_ok) = (Raise e', w').
Proof.
  assert (("diabetes", config_diabetes) ∈ DATASETS) as Hin by left.
  split; [exact Hin|]. split; [reflexivity|].
  exact (@main_raises_on_listing_failure exact_floats (world_of listing_ok)
           "diabetes" config_diabetes FileNotFoundError Hin eq_refl).
Defined.

(** ** The copied images *)

Lemma string_length_app (s t : string) :
  String.length (s +:+ t) = (String.length s + String.length t)%nat.
Proof. induction s as [|c s IH]; simpl; [done|]. by rewrite IH. Qed.

Lemma string_app_inj_r (s1 s2 t : string) : s1 +:+ t = s2 +:+ t -> s1 = s2.
Proof.
  revert s2. induction s1 as [|c s1 IH]; intros [|c' s2] Heq.
  - done.
  - apply (f_equal String.length) in Heq.
    rewrite !string_length_app in Heq. simpl in Heq. lia.
  - apply (f_equal String.length) in Heq.
    rewrite !string_length_app in Heq. simpl in Heq. lia.
  - change (String c (s1 +:+ t) = String c' (s2 +:+ t)) in Heq.
    injection Heq as -> Heq. f_equal. by apply IH.
Qed.

Lemma sample_name_inj (dir : string) (i j : nat) :
  path_join dir ("sample_" +:+ pretty i +:+ ".png")
    = path_join dir ("sample_" +:+ pretty j +:+ ".png") ->
  i = j.
Proof.
  unfold path_join.
  change (String.prefix "/" ("sample_" +:+ ?s)) with false. cbv iota.
  intros Heq.
  assert ("sample_" +:+ pretty i +:+ ".png" = "sample_" +:+ pretty j +:+ ".png")
    as Heq'.
  { destruct (String.eqb dir "" || ends_with_slash dir).
    - by apply String.app_inj in Heq.
    - apply String.app_inj in Heq. by apply (String.app_inj "/") in Heq. }
  apply (String.app_inj "sample_") in Heq'.
  apply string_app_inj_r in Heq'. by apply (inj pretty).
Qed.

Lemma sample_path_inj (dataset_key : string) (i j : nat) :
  sample_path dataset_key i = sample_path dataset_key j -> i = j.
Proof. apply sample_name_inj. Qed.


Section CopyFacts.
Context `{FloatOps}.



End CopyFacts.

Section CopyResults.
Context `{FloatOps}.



End CopyResults.


(** On the test world the first sample has no image, so the older file at
    its place stays; the second sample's image is copied. *)
Example process_dataset_mixed_images :
  w_files (@process_dataset exact_floats "mixed" config_runs
             world_with_image).2 !! sample_path "mixed" 0
    = Some (FImage "older image") /\
  w_files (@process_dataset exact_floats "mixed" config_runs
             world_with_image).2 !! sample_path "mixed" 1
    = Some (FImage "image of run_a").
Proof. by vm_compute. Qed.

(** ** The batch over the datasets *)

Section BatchFacts.
Context `{FloatOps}.




End BatchFacts.


(** ** The sampler on the store *)

Lemma is_record_mono h h' v r : h ⊆ h' -> is_record h v r -> is_record h' v r.
Proof.
  intros Hsub (l & -> & Hl). exists l. split; [done|].
  by eapply lookup_weaken.
Qed.

Lemma is_records_mono h h' vs rs :
  h ⊆ h' -> Forall2 (is_record h) vs rs -> Forall2 (is_record h') vs rs.
Proof.
  intros Hsub Hvs. eapply Forall2_impl; [exact Hvs|].
  intros v r. by apply is_record_mono.
Qed.

(** Sorting two lists whose elements are related and have equal keys gives
    related lists. *)
Section SortedRelated.
Context {A B K : Type} (ltb : K -> K -> bool).
Context (ka : A -> K) (kb : B -> K) (R : A -> B -> Prop).
Hypothesis R_key : forall a b, R a b -> ka a = kb b.

Lemma insert_stable_Forall2 x y l l' :
  R x y -> Forall2 R l l' ->
  Forall2 R (insert_stable ltb ka x l) (insert_stable ltb kb y l').
Proof using R_key.
  intros Hxy. induction 1 as [|a b l l' Hab Hl IH]; simpl.
  - by repeat constructor.
  - rewrite (R_key _ _ Hxy), (R_key _ _ Hab).
    destruct (ltb (kb b) (kb y)); by repeat constructor.
Qed.

Lemma py_sorted_Forall2 l l' :
  Forall2 R l l' -> Forall2 R (py_sorted ltb ka l) (py_sorted ltb kb l').
Proof using R_key.
  induction 1; simpl; [constructor|]. by apply insert_stable_Forall2.
Qed.
End SortedRelated.

Lemma py_index_Forall2 {A B} (R : A -> B -> Prop) l l' i :
  Forall2 R l l' ->
  match py_index l i, py_index l' i with
  | Ok x, Ok y => R x y
  | Raise e, Raise e' => e = e'
  | _, _ => False
  end.
Proof.
  intros Hl. unfold py_index. rewrite <- (Forall2_length _ _ _ Hl).
  destruct (_ || _); [done|].
  set (j := Z.to_nat _).
  destruct (l !! j) as [x|] eqn:Hx, (l' !! j) as [y|] eqn:Hy; try done.
  - by eapply Forall2_lookup_lr.
  - apply lookup_lt_Some in Hx. apply lookup_ge_None in Hy.
    apply Forall2_length in Hl. lia.
  - apply lookup_lt_Some in Hy. apply lookup_ge_None in Hx.
    apply Forall2_length in Hl. lia.
Qed.

Lemma keyed_scores h vs rs :
  Forall2 (is_record h) vs rs ->
  exists keyed,
    mapM (fun v => k ← get_score h v; Ok (k, v)) vs = Ok keyed /\
    Forall2 (fun kv r => kv.1 = score r /\ is_record h kv.2 r) keyed rs.
Proof.
  induction 1 as [|v r vs rs Hv _ (keyed & IH & Hkeyed)].
  - exists []. split; [done|constructor].
  - exists ((score r, v) :: keyed). split; [|by constructor].
    destruct Hv as (l & -> & Hl). simpl. rewrite Hl, IH. done.
Qed.

Lemma hbind_run {A B} (m : hprog A) (f : A -> hprog B) h :
  (m ≫= f) h =
    match m h with
    | (Ok a, h') => f a h'
    | (Raise e, h') => (Raise e, h')
    end.
Proof. done. Qed.

Lemma alloc_run o h : alloc o h = (Ok (fresh (dom h)), <[fresh (dom h):=o]> h).
Proof. done. Qed.

Lemma hlift_run {A} (r : result A) h : hlift r h = (r, h).
Proof. done. Qed.

Lemma list_items_run h l vs :
  h !! l = Some (OList vs) -> list_items l h = (Ok vs, h).
Proof. intros Hl. unfold list_items. by rewrite Hl. Qed.

Lemma list_index_run h l vs i :
  h !! l = Some (OList vs) -> list_index l i h = (py_index vs i, h).
Proof.
  intros Hl. unfold list_index.
  by rewrite hbind_run, (list_items_run h l vs Hl).
Qed.

Lemma list_append_run h l vs v :
  h !! l = Some (OList vs) ->
  list_append l v h = (Ok tt, <[l:=OList (vs ++ [v])]> h).
Proof. intros Hl. unfold list_append. by rewrite Hl. Qed.

Lemma heap_sorted_run h insights rs :
  is_insights h insights rs ->
  exists svs,
    heap_sorted insights h
      = (Ok (fresh (dom h)), <[fresh (dom h):=OList svs]> h) /\
    Forall2 (is_record h) svs (sorted_by_score rs).
Proof.
  intros (vs & Hl & Hvs).
  destruct (keyed_scores h vs rs Hvs) as (keyed & Hkeyed & Hrel).
  exists (snd <$> py_sorted Qltb fst keyed). split.
  - unfold heap_sorted.
    rewrite hbind_run, (list_items_run h insights vs Hl), hbind_run.
    cbv beta. by rewrite Hkeyed.
  - apply Forall2_fmap_l. unfold sorted_by_score.
    eapply Forall2_impl;
      [apply (py_sorted_Forall2 Qltb fst score
                (fun kv r => kv.1 = score r /\ is_record h kv.2 r));
       [by intros kv r [? _]|exact Hrel]|].
    by intros kv r [_ ?].
Qed.

(** The stride loop on the store follows the loop on values: it reads the
    sorted list at [l1], appends to the lists at [l2] and [l3], and touches
    no other location. *)
Lemma stride_loop_run h svs sorted l1 l2 l3 items :
  Forall2 (is_record h) svs sorted ->
  l1 <> l2 -> l1 <> l3 -> l2 <> l3 ->
  forall hc sv sa iv,
    hc !! l1 = Some (OList svs) ->
    hc !! l2 = Some (OList sv) ->
    hc !! l3 = Some (OList (VInt <$> iv)) ->
    Forall2 (is_record h) sv sa ->
    exists res hc',
      for_each_h (fun i => x ← list_index l1 i;
                           list_append l2 x;; list_append l3 (VInt i))
        items hc = (res, hc') /\
      (forall l, l <> l2 -> l <> l3 -> hc' !! l = hc !! l) /\
      match for_each (sample_step sorted) items (sa, iv) with
      | Ok (sa', iv') =>
          res = Ok tt /\
          exists sv', hc' !! l2 = Some (OList sv') /\
                      Forall2 (is_record h) sv' sa' /\
                      hc' !! l3 = Some (OList (VInt <$> iv'))
      | Raise e => res = Raise e
      end.
Proof.
  intros Hsorted H12 H13 H23.
  induction items as [|i items IH]; intros hc sv sa iv Hl1 Hl2 Hl3 Hsv.
  - exists (Ok tt), hc. simpl. split; [done|]. split; [done|].
    split; [done|]. by exists sv.
  - simpl. rewrite !hbind_run, (list_index_run hc l1 svs i Hl1).
    pose proof (py_index_Forall2 (is_record h) svs sorted i Hsorted) as Hidx.
    destruct (py_index svs i) as [v|e], (py_index sorted i) as [x|e'];
      try done; simpl; [|subst e'; by exists (Raise e), hc].
    rewrite hbind_run, (list_append_run hc l2 sv v Hl2).
    set (hc1 := <[l2:=OList (sv ++ [v])]> hc).
    assert (hc1 !! l3 = Some (OList (VInt <$> iv))) as Hl3'
      by (unfold hc1; by rewrite lookup_insert_ne).
    rewrite (list_append_run hc1 l3 _ (VInt i) Hl3').
    set (hc2 := <[l3:=OList ((VInt <$> iv) ++ [VInt i])]> hc1).
    destruct (IH hc2 (sv ++ [v]) (sa ++ [x]) (iv ++ [i]))
      as (res & hc' & Hrun & Hframe & Hres).
    + unfold hc2, hc1. by rewrite !lookup_insert_ne.
    + unfold hc2, hc1. by rewrite lookup_insert_ne, lookup_insert_eq.
    + unfold hc2. by rewrite lookup_insert_eq, fmap_app.
    + apply Forall2_app; [done|]. by repeat constructor.
    + exists res, hc'. split; [done|]. split; [|done].
      intros l Hl2' Hl3''. rewrite Hframe by done.
      unfold hc2, hc1. by rewrite !lookup_insert_ne.
Qed.

Lemma fresh_not_in_sub (h hc : gmap nat pyobj) :
  h ⊆ hc -> h !! fresh (dom hc) = None.
Proof.
  intros Hsub. apply not_elem_of_dom. intros Hin.
  apply (is_fresh (dom hc)). by eapply subseteq_dom.
Qed.

(** A call on the store returns what the sampler on values returns for the
    records of the input list, and keeps every object that was there. *)
Lemma sample_insights_heap_sim h insights rs interval :
  is_insights h insights rs ->
  exists r h',
    sample_insights_heap insights interval h = (r, h') /\
    h ⊆ h' /\
    is_outcome h' r (sample_insights rs interval).
Proof.
  intros Hin.
  destruct (heap_sorted_run h insights rs Hin) as (svs & Hsort & Hsvs).
  set (l1 := fresh (dom h)) in *. set (h1 := <[l1:=OList svs]> h) in *.
  assert (h !! l1 = None) as Hl1 by (by apply fresh_not_in_sub).
  assert (h ⊆ h1) as Hh1 by (by apply insert_subseteq).
  assert (h1 !! l1 = Some (OList svs)) as Hh1l1 by apply lookup_insert_eq.
  set (l2 := fresh (dom h1)).
  assert (h !! l2 = None) as Hl2 by (by apply fresh_not_in_sub).
  assert (h1 !! l2 = None) as Hh1l2 by (by apply fresh_not_in_sub).
  assert (l1 <> l2) as H12 by congruence.
  remember (sample_insights rs interval) as p eqn:Hp.
  unfold sample_insights in Hp.
  unfold sample_insights_heap.
  rewrite hbind_run, Hsort, hbind_run, (list_items_run h1 l1 svs Hh1l1).
  cbv beta iota zeta.
  rewrite (Forall2_length _ _ _ Hsvs).
  set (sorted := sorted_by_score rs) in *.
  assert (forall o2 o3,
    let h2 := <[l2:=o2]> h1 in
    let l3 := fresh (dom h2) in
    let h3 := <[l3:=o3]> h2 in
    h ⊆ h3 /\ h !! l3 = None /\ l1 <> l3 /\ l2 <> l3 /\
    h3 !! l1 = Some (OList svs) /\ h3 !! l2 = Some o2 /\ h3 !! l3 = Some o3)
    as Halloc.
  { intros o2 o3 h2 l3 h3.
    assert (h ⊆ h2) as Hh2 by (by apply insert_subseteq_r).
    assert (h2 !! l3 = None) as Hh2l3 by (by apply fresh_not_in_sub).
    assert (h !! l3 = None) as Hl3 by (by apply fresh_not_in_sub).
    assert (l2 <> l3) as H23
      by (intros <-; unfold h2 in Hh2l3; by rewrite lookup_insert_eq in Hh2l3).
    assert (l1 <> l3) as H13.
    { intros <-. unfold h2 in Hh2l3.
      rewrite lookup_insert_ne in Hh2l3 by done. congruence. }
    split_and!; try done.
    - by apply insert_subseteq_r.
    - unfold h3, h2. by rewrite !lookup_insert_ne.
    - unfold h3, h2. by rewrite lookup_insert_ne, lookup_insert_eq.
    - apply lookup_insert_eq. }
  destruct (Z.of_nat (length sorted) =? 0).
  { destruct (Halloc (OList []) (OList [])) as (Hsub & _ & _ & _ & _ & H2 & H3).
    subst p. eexists _, _. split; [done|]. split; [exact Hsub|].
    split; [|exact H3]. exists []. split; [exact H2|constructor]. }
  pose proof (py_index_Forall2 (is_record h) svs sorted 0 Hsvs) as Hidx0.
  destruct (Z.of_nat (length sorted) =? 1).
  { rewrite hbind_run, (list_index_run h1 l1 svs 0 Hh1l1).
    destruct (py_index svs 0) as [v0|e], (py_index sorted 0) as [x0|e'];
      try done; simpl in Hp; subst p;
      [|subst e'; by exists (Raise e), h1].
    destruct (Halloc (OList [v0]) (OList [VInt 0]))
      as (Hsub & _ & _ & _ & _ & H2 & H3).
    eexists _, _. split; [done|]. split; [exact Hsub|].
    split; [|exact H3]. exists [v0]. split; [exact H2|].
    repeat constructor. by eapply is_record_mono. }
  rewrite hbind_run, (list_index_run h1 l1 svs 0 Hh1l1).
  destruct (py_index svs 0) as [v0|e], (py_index sorted 0) as [x0|e'];
    try done; simpl in Hp; [|subst p e'; by exists (Raise e), h1].
  destruct (Halloc (OList [v0]) (OList [VInt 0]))
    as (Hsub & Hl3 & H13 & H23 & H1 & H2 & H3).
  set (h2 := <[l2:=OList [v0]]> h1) in *.
  set (l3 := fresh (dom h2)) in *.
  set (h3 := <[l3:=OList [VInt 0]]> h2) in *.
  rewrite hbind_run, alloc_run. fold l2 h2. cbv beta iota.
  rewrite hbind_run, alloc_run. fold l3 h3. cbv beta iota.
  rewrite hbind_run, hlift_run.
  destruct (py_range interval (Z.of_nat (length sorted) - 1) interval)
    as [items|e]; simpl in Hp; cbv beta iota;
    [|subst p; exists (Raise e), h3; by split_and!].
  destruct (stride_loop_run h svs sorted l1 l2 l3 items Hsvs H12 H13 H23
              h3 [v0] [x0] [0] H1 H2 H3)
    as (res & hc & Hloop & Hframe & Hres); [by repeat constructor|].
  rewrite hbind_run, Hloop.
  assert (h ⊆ hc) as Hhc.
  { apply map_subseteq_spec. intros l o Hl.
    rewrite Hframe by congruence. by eapply lookup_weaken. }
  destruct (for_each (sample_step sorted) items ([x0], [0]))
    as [[sa ia]|e]; simpl in Hp;
    [|subst p res; exists (Raise e), hc; by split_and!].
  destruct Hres as (-> & sv & Hsv & Hsa & Hia). cbv beta iota.
  assert (hc !! l1 = Some (OList svs)) as Hhc1 by (by rewrite Hframe).
  rewrite hbind_run, (list_index_run hc l1 svs (-1) Hhc1).
  pose proof (py_index_Forall2 (is_record h) svs sorted (-1) Hsvs) as Hidxl.
  destruct (py_index svs (-1)) as [vl|e], (py_index sorted (-1)) as [xl|e'];
    try done; simpl in Hp; subst p; cbv beta iota;
    [|subst e'; exists (Raise e), hc; by split_and!].
  rewrite hbind_run, (list_append_run hc l2 sv vl Hsv). cbv beta iota.
  set (hc1 := <[l2:=OList (sv ++ [vl])]> hc).
  assert (hc1 !! l3 = Some (OList (VInt <$> ia))) as Hia'
    by (unfold hc1; by rewrite lookup_insert_ne).
  rewrite hbind_run, (list_append_run hc1 l3 _ _ Hia'). cbv beta iota.
  set (hc2 := <[l3:=_]> hc1).
  assert (h ⊆ hc2) as Hhc2 by (by repeat apply insert_subseteq_r).
  exists (Ok (l2, l3)), hc2. split; [done|]. split; [done|]. split.
  - exists (sv ++ [vl]). split.
    + unfold hc2, hc1. by rewrite lookup_insert_ne, lookup_insert_eq.
    + apply (is_records_mono h); [done|].
      apply Forall2_app; [done|]. by repeat constructor.
  - unfold is_ints, hc2. by rewrite lookup_insert_eq, fmap_app.
Qed.

Lemma is_insights_mono h h' l rs :
  h ⊆ h' -> is_insights h l rs -> is_insights h' l rs.
Proof.
  intros Hsub (vs & Hl & Hvs). exists vs. split.
  - by eapply lookup_weaken.
  - by eapply is_records_mono.
Qed.

Lemma is_outcome_mono h h' r p :
  h ⊆ h' -> is_outcome h r p -> is_outcome h' r p.
Proof.
  intros Hsub. destruct r as [[ls li]|e], p as [[sampled indices]|e'];
    simpl; try done.
  intros [Hs Hi]. split; [by eapply is_insights_mono|].
  by eapply lookup_weaken.
Qed.

(** C8: a call of the sampler leaves every object of the store as it was, in
    particular the input list and the records it refers to; what the call
    returns is the value of the sampler on the records of the list and the
    stride, so a second call on the same list returns the same; the lists
    returned by the first call are not touched by the second. *)
Theorem sample_insights_no_side_effects
    (h : gmap nat pyobj) (insights : nat) (rs : list Insight) (interval : Z) :
  is_insights h insights rs ->
  exists r1 h1 r2 h2,
    sample_insights_heap insights interval h = (r1, h1) /\
    (forall l o, h !! l = Some o -> h1 !! l = Some o) /\
    is_insights h1 insights rs /\
    is_outcome h1 r1 (sample_insights rs interval) /\
    sample_insights_heap insights interval h1 = (r2, h2) /\
    is_outcome h2 r2 (sample_insights rs interval) /\
    is_outcome h2 r1 (sample_insights rs interval).
Proof.
  intros Hin.
  destruct (sample_insights_heap_sim h insights rs interval Hin)
    as (r1 & h1 & Hrun1 & Hsub1 & Hout1).
  assert (is_insights h1 insights rs) as Hin1 by (by eapply is_insights_mono).
  destruct (sample_insights_heap_sim h1 insights rs interval Hin1)
    as (r2 & h2 & Hrun2 & Hsub2 & Hout2).
  exists r1, h1, r2, h2. split_and!; try done.
  - intros l o Hl. by eapply lookup_weaken.
  - by eapply is_outcome_mono.
Qed.

Lemma sample_insights_no_side_effects_witness :
  is_insights heap_3 3 records_3 /\
  exists r1 h1 r2 h2,
    sample_insights_heap 3 1 heap_3 = (r1, h1) /\
    (forall l o, heap_3 !! l = Some o -> h1 !! l = Some o) /\
    is_insights h1 3 records_3 /\
    is_outcome h1 r1 (sample_insights records_3 1) /\
    sample_insights_heap 3 1 h1 = (r2, h2) /\
    is_outcome h2 r2 (sample_insights records_3 1) /\
    is_outcome h2 r1 (sample_insights records_3 1).
Proof.
  assert (is_insights heap_3 3 records_3) as Hin.
  { exists [VRef 0; VRef 1; VRef 2]. split; [reflexivity|].
    repeat constructor; eexists; (split; [reflexivity|reflexivity]). }
  split; [exact Hin|].
  exact (sample_insights_no_side_effects heap_3 3 records_3 1 Hin).
Defined.

(** On the store of the test data the call returns two new lists: the
    references in score order and the indices. *)
Example sample_insights_heap_3 :
  (sample_insights_heap 3 1 heap_3).1 = Ok (5%nat, 6%nat) /\
  (sample_insights_heap 3 1 heap_3).2 !! 5%nat
    = Some (OList [VRef 1; VRef 2; VRef 0]) /\
  (sample_insights_heap 3 1 heap_3).2 !! 6%nat
    = Some (OList [VInt 0; VInt 1; VInt 2]) /\
  (sample_insights_heap 3 1 heap_3).2 !! 3%nat
    = Some (OList [VRef 0; VRef 1; VRef 2]).
Proof. by vm_compute. Qed.

(** ** More on the sampler on the store: what it allocates and shares *)

Lemma py_index_elem {A} (l : list A) i x : py_index l i = Ok x -> x ∈ l.
Proof.
  unfold py_index. destruct (_ || _); [done|].
  destruct (l !! _) as [y|] eqn:Hy; [|done].
  intros [= <-]. by eapply list_elem_of_lookup_2.
Qed.

Lemma keyed_snd h vs keyed :
  mapM (fun v => k ← get_score h v; Ok (k, v)) vs = Ok keyed ->
  snd <$> keyed = vs.
Proof.
  revert keyed. induction vs as [|v vs IH]; intros keyed; simpl.
  - by intros [= <-].
  - destruct (get_score h v) as [k|e]; simpl; [|done].
    destruct (mapM _ vs) as [keyed'|e]; simpl; [|done].
    intros [= <-]. simpl. f_equal. by apply IH.
Qed.

(** The sorted list on the store holds the references of the input list. *)
Lemma heap_sorted_refs h insights vs rs :
  h !! insights = Some (OList vs) -> Forall2 (is_record h) vs rs ->
  exists svs,
    heap_sorted insights h
      = (Ok (fresh (dom h)), <[fresh (dom h):=OList svs]> h) /\
    svs ≡ₚ vs.
Proof.
  intros Hl Hvs.
  destruct (keyed_scores h vs rs Hvs) as (keyed & Hkeyed & Hrel).
  exists (snd <$> py_sorted Qltb fst keyed). split.
  - unfold heap_sorted.
    rewrite hbind_run, (list_items_run h insights vs Hl), hbind_run.
    cbv beta. by rewrite Hkeyed.
  - by rewrite py_sorted_perm, (keyed_snd h vs keyed).
Qed.

(** The stride loop appends to the list at [l2] only items of the sorted
    list, and creates no object. *)
Lemma stride_loop_refs svs l1 l2 l3 items :
  l1 <> l2 -> l1 <> l3 -> l2 <> l3 ->
  forall hc sv iv,
    hc !! l1 = Some (OList svs) ->
    hc !! l2 = Some (OList sv) ->
    hc !! l3 = Some (OList iv) ->
    Forall (fun v => v ∈ svs) sv ->
    exists res hc',
      for_each_h (fun i => x ← list_index l1 i;
                           list_append l2 x;; list_append l3 (VInt i))
        items hc = (res, hc') /\
      (forall l, l <> l2 -> l <> l3 -> hc' !! l = hc !! l) /\
      dom hc' = dom hc /\
      exists sv' iv',
        hc' !! l2 = Some (OList sv') /\ Forall (fun v => v ∈ svs) sv' /\
        hc' !! l3 = Some (OList iv').
Proof.
  intros H12 H13 H23.
  induction items as [|i items IH]; intros hc sv iv Hl1 Hl2 Hl3 Hsv.
  - exists (Ok tt), hc. simpl. split_and!; try done. by exists sv, iv.
  - simpl. rewrite !hbind_run, (list_index_run hc l1 svs i Hl1).
    destruct (py_index svs i) as [v|e] eqn:Hidx;
      [|exists (Raise e), hc; split_and!; try done; by exists sv, iv].
    rewrite hbind_run, (list_append_run hc l2 sv v Hl2).
    set (hc1 := <[l2:=OList (sv ++ [v])]> hc).
    assert (hc1 !! l3 = Some (OList iv)) as Hl3'
      by (unfold hc1; by rewrite lookup_insert_ne).
    rewrite (list_append_run hc1 l3 _ (VInt i) Hl3').
    set (hc2 := <[l3:=OList (iv ++ [VInt i])]> hc1).
    destruct (IH hc2 (sv ++ [v]) (iv ++ [VInt i]))
      as (res & hc' & Hrun & Hframe & Hdom & Hres).
    + unfold hc2, hc1. by rewrite !lookup_insert_ne.
    + unfold hc2, hc1. by rewrite lookup_insert_ne, lookup_insert_eq.
    + unfold hc2. by rewrite lookup_insert_eq.
    + apply Forall_app. split; [done|].
      repeat constructor. by eapply py_index_elem.
    + exists res, hc'. split; [done|]. split_and!; [| |done].
      * intros l Hl2' Hl3''. rewrite Hframe by done.
        unfold hc2, hc1. by rewrite !lookup_insert_ne.
      * rewrite Hdom. unfold hc2.
        rewrite dom_insert_lookup_L by (by rewrite Hl3').
        unfold hc1. by rewrite dom_insert_lookup_L by (by rewrite Hl2).
Qed.

(** X17: when a call of the sampler on the store returns, the two lists it
    returns are new objects, different from each other; the one other object
    the call creates is the sorted list; and every item of the sampled list
    is one of the references of the input list, so the records are shared
    with the input, not copied. *)
Theorem sample_insights_heap_shares
    (h : gmap nat pyobj) (insights : nat) (vs : list pyval)
    (rs : list Insight) (interval : Z) (ls li : nat) (h' : gmap nat pyobj) :
  h !! insights = Some (OList vs) ->
  Forall2 (is_record h) vs rs ->
  sample_insights_heap insights interval h = (Ok (ls, li), h') ->
  (ls ∉ dom h) /\ (li ∉ dom h) /\ ls <> li /\
  (exists sv, h' !! ls = Some (OList sv) /\ Forall (fun v => v ∈ vs) sv) /\
  (exists lsorted,
     (lsorted ∉ dom h) /\ lsorted <> ls /\ lsorted <> li /\
     dom h' = {[lsorted; ls; li]} ∪ dom h).
Proof.
  intros Hl Hvs Hrun.
  destruct (heap_sorted_refs h insights vs rs Hl Hvs) as (svs & Hsort & Hperm).
  set (l1 := fresh (dom h)) in *. set (h1 := <[l1:=OList svs]> h) in *.
  assert (l1 ∉ dom h) as Hl1 by apply is_fresh.
  assert (h1 !! l1 = Some (OList svs)) as Hh1l1 by apply lookup_insert_eq.
  assert (dom h1 = {[l1]} ∪ dom h) as Hd1 by apply dom_insert_L.
  set (l2 := fresh (dom h1)) in *.
  assert (l2 ∉ dom h1) as Hl2 by apply is_fresh.
  assert (forall o2 o3,
    let h2 := <[l2:=o2]> h1 in
    let l3 := fresh (dom h2) in
    let h3 := <[l3:=o3]> h2 in
    (l3 ∉ dom h2) /\ dom h2 = {[l2]} ∪ dom h1 /\ dom h3 = {[l3]} ∪ dom h2 /\
    h3 !! l1 = Some (OList svs) /\ h3 !! l2 = Some o2 /\ h3 !! l3 = Some o3)
    as Halloc.
  { intros o2 o3 h2 l3 h3.
    assert (l3 ∉ dom h2) as Hl3 by apply is_fresh.
    assert (dom h2 = {[l2]} ∪ dom h1) as Hd2 by apply dom_insert_L.
    split_and!; try done.
    - apply dom_insert_L.
    - unfold h3, h2. rewrite !lookup_insert_ne; [done| |]; set_solver.
    - unfold h3, h2. rewrite lookup_insert_ne, lookup_insert_eq; [done|].
      set_solver.
    - apply lookup_insert_eq. }
  assert (forall l3 (hf : gmap nat pyobj) sv,
    (l3 ∉ ({[l2]} ∪ dom h1 : gset nat)) ->
    dom hf = {[l3]} ∪ ({[l2]} ∪ dom h1) ->
    hf !! l2 = Some (OList sv) -> Forall (fun v => v ∈ svs) sv ->
    (l2 ∉ dom h) /\ (l3 ∉ dom h) /\ l2 <> l3 /\
    (exists sv, hf !! l2 = Some (OList sv) /\ Forall (fun v => v ∈ vs) sv) /\
    (exists lsorted,
       (lsorted ∉ dom h) /\ lsorted <> l2 /\ lsorted <> l3 /\
       dom hf = {[lsorted; l2; l3]} ∪ dom h)) as Hdone.
  { intros l3 hf sv Hl3 Hdf Hsv Hrefs. split_and!.
    - set_solver.
    - set_solver.
    - set_solver.
    - exists sv. split; [done|].
      eapply Forall_impl; [exact Hrefs|]. intros v Hv. by rewrite <-Hperm.
    - exists l1. split_and!; [done|set_solver|set_solver|].
      rewrite Hdf, Hd1. set_solver. }
  unfold sample_insights_heap in Hrun.
  rewrite hbind_run, Hsort, hbind_run, (list_items_run h1 l1 svs Hh1l1) in Hrun.
  cbv beta iota zeta in Hrun.
  destruct (Z.of_nat (length svs) =? 0).
  { destruct (Halloc (OList []) (OList [])) as (Hl3 & Hd2 & Hd3 & _ & H2 & _).
    rewrite hbind_run, alloc_run in Hrun. cbv beta iota in Hrun.
    rewrite hbind_run, alloc_run in Hrun. cbv beta iota in Hrun.
    injection Hrun as <- <- <-.
    eapply Hdone;
      [rewrite <-Hd2; exact Hl3|rewrite <-Hd2; exact Hd3|exact H2|constructor]. }
  destruct (Z.of_nat (length svs) =? 1).
  { rewrite hbind_run, (list_index_run h1 l1 svs 0 Hh1l1) in Hrun.
    destruct (py_index svs 0) as [v0|e] eqn:Hv0; [|done].
    cbv beta iota in Hrun.
    destruct (Halloc (OList [v0]) (OList [VInt 0]))
      as (Hl3 & Hd2 & Hd3 & _ & H2 & _).
    rewrite hbind_run, alloc_run in Hrun. cbv beta iota in Hrun.
    rewrite hbind_run, alloc_run in Hrun. cbv beta iota in Hrun.
    injection Hrun as <- <- <-.
    eapply Hdone;
      [rewrite <-Hd2; exact Hl3|rewrite <-Hd2; exact Hd3|exact H2|].
    repeat constructor. by eapply py_index_elem. }
  rewrite hbind_run, (list_index_run h1 l1 svs 0 Hh1l1) in Hrun.
  destruct (py_index svs 0) as [v0|e] eqn:Hv0; [|done].
  cbv beta iota in Hrun.
  destruct (Halloc (OList [v0]) (OList [VInt 0]))
    as (Hl3 & Hd2 & Hd3 & H1 & H2 & H3).
  set (h2 := <[l2:=OList [v0]]> h1) in *.
  set (l3 := fresh (dom h2)) in *.
  set (h3 := <[l3:=OList [VInt 0]]> h2) in *.
  rewrite hbind_run, alloc_run in Hrun. fold l2 h2 in Hrun.
  cbv beta iota in Hrun.
  rewrite hbind_run, alloc_run in Hrun. fold l3 h3 in Hrun.
  cbv beta iota in Hrun.
  rewrite hbind_run, hlift_run in Hrun.
  destruct (py_range interval (Z.of_nat (length svs) - 1) interval)
    as [items|e]; [|done].
  cbv beta iota in Hrun.
  assert (l1 <> l2) as H12 by set_solver.
  assert (l1 <> l3) as H13 by set_solver.
  assert (l2 <> l3) as H23 by set_solver.
  destruct (stride_loop_refs svs l1 l2 l3 items H12 H13 H23
              h3 [v0] [VInt 0] H1 H2 H3)
    as (res & hc & Hloop & Hframe & Hdc & sv & iv & Hsv & Hrefs & Hiv).
  { repeat constructor. by eapply py_index_elem. }
  rewrite hbind_run, Hloop in Hrun.
  destruct res as [[]|e]; [|done].
  assert (hc !! l1 = Some (OList svs)) as Hhc1 by (by rewrite Hframe).
  rewrite hbind_run, (list_index_run hc l1 svs (-1) Hhc1) in Hrun.
  destruct (py_index svs (-1)) as [vl|e] eqn:Hvl; [|done].
  cbv beta iota in Hrun.
  rewrite hbind_run, (list_append_run hc l2 sv vl Hsv) in Hrun.
  cbv beta iota in Hrun.
  set (hc1 := <[l2:=OList (sv ++ [vl])]> hc) in *.
  assert (hc1 !! l3 = Some (OList iv)) as Hiv'
    by (unfold hc1; by rewrite lookup_insert_ne).
  rewrite hbind_run, (list_append_run hc1 l3 _ _ Hiv') in Hrun.
  cbv beta iota in Hrun.
  injection Hrun as <- <- <-.
  eapply (Hdone l3 _ (sv ++ [vl])).
  - by rewrite <-Hd2.
  - rewrite dom_insert_lookup_L by (by rewrite Hiv').
    unfold hc1. rewrite dom_insert_lookup_L by (by rewrite Hsv).
    by rewrite Hdc, Hd3, Hd2.
  - unfold hc1. by rewrite lookup_insert_ne, lookup_insert_eq.
  - apply Forall_app. split; [done|].
    repeat constructor. by eapply py_index_elem.
Qed.

Lemma sample_insights_heap_shares_witness :
  heap_3 !! 3%nat = Some (OList [VRef 0; VRef 1; VRef 2]) /\
  Forall2 (is_record heap_3) [VRef 0; VRef 1; VRef 2] records_3 /\
  sample_insights_heap 3 1 heap_3
    = (Ok (5%nat, 6%nat), (sample_insights_heap 3 1 heap_3).2) /\
  (5%nat ∉ dom heap_3) /\ (6%nat ∉ dom heap_3) /\ 5%nat <> 6%nat /\
  (exists sv, (sample_insights_heap 3 1 heap_3).2 !! 5%nat = Some (OList sv) /\
              Forall (fun v => v ∈ [VRef 0; VRef 1; VRef 2]) sv) /\
  (exists lsorted,
     (lsorted ∉ dom heap_3) /\ lsorted <> 5%nat /\ lsorted <> 6%nat /\
     dom (sample_insights_heap 3 1 heap_3).2
       = {[lsorted; 5%nat; 6%nat]} ∪ dom heap_3).
Proof.
  assert (heap_3 !! 3%nat = Some (OList [VRef 0; VRef 1; VRef 2])) as Hl
    by reflexivity.
  assert (Forall2 (is_record heap_3) [VRef 0; VRef 1; VRef 2] records_3)
    as Hvs.
  { repeat constructor; eexists; (split; [reflexivity|reflexivity]). }
  assert (sample_insights_heap 3 1 heap_3
          = (Ok (5%nat, 6%nat), (sample_insights_heap 3 1 heap_3).2)) as Hrun
    by (by vm_compute).
  split; [exact Hl|]. split; [exact Hvs|]. split; [exact Hrun|].
  exact (sample_insights_heap_shares heap_3 3 [VRef 0; VRef 1; VRef 2]
           records_3 1 5 6 _ Hl Hvs Hrun).
Defined.

(* ================================================================= *)
(** * The single-dataset script *)

Lemma ibind_run {A B} (m : iprog A) (f : A -> iprog B) w :
  (m ≫= f) w =
    match m w with
    | (Ok a, w') => f a w'
    | (Raise e, w') => (Raise e, w')
    end.
Proof. done. Qed.

Lemma iprint_run l w : iprint l w = (Ok tt, ilog_to [l] w).
Proof. done. Qed.

Lemma ilog_to_nil w : ilog_to [] w = w.
Proof. destruct w. unfold ilog_to. simpl. by rewrite app_nil_r. Qed.

Lemma ilog_to_app l1 l2 w : ilog_to l2 (ilog_to l1 w) = ilog_to (l1 ++ l2) w.
Proof. unfold ilog_to. simpl. by rewrite app_assoc. Qed.


Section InteractiveLoader.
Context `{FloatOps}.

Lemma run_outcome_warnings runs_root e :
  (run_outcome runs_root e).2 = warn_all <$> run_warnings runs_root e.
Proof.
  unfold run_outcome, run_warnings.
  destruct (run_qualifies e); [|done].
  destruct (entry_insights e) as [file|]; [|done].
  by destruct (load_file _ _ file []) as [recs [ex|]].
Qed.

Lemma iload_run_outcome runs_root e acc w :
  ExtractInteractiveSteps.load_run runs_root e acc w
    = (Ok (acc ++ (run_outcome runs_root e).1),
       ilog_to (warn_interactive <$> run_warnings runs_root e) w).
Proof.
  unfold ExtractInteractiveSteps.load_run, run_outcome, run_warnings,
    run_qualifies.
  destruct (entry_isdir e); simpl; [|by rewrite app_nil_r, ilog_to_nil].
  destruct (String.prefix "run_" (entry_name e)); simpl;
    [|by rewrite app_nil_r, ilog_to_nil].
  destruct (entry_has_error_json e); simpl;
    [by rewrite app_nil_r, ilog_to_nil|].
  destruct (entry_insights e) as [file|]; [|by rewrite app_nil_r, ilog_to_nil].
  change (ExtractInteractiveSteps.load_file ?a ?b ?c ?d)
    with (load_file a b c d).
  rewrite load_file_acc.
  destruct (load_file _ _ file []) as [recs [ex|]]; simpl; [done|].
  by rewrite ilog_to_nil.
Qed.

Lemma iload_runs_outcome runs_root entries acc w :
  for_each_iprog (ExtractInteractiveSteps.load_run runs_root) entries acc w
    = (Ok (acc ++ entries ≫= (fun e => (run_outcome runs_root e).1)),
       ilog_to (warn_interactive <$> (entries ≫= run_warnings runs_root)) w).
Proof.
  revert acc w. induction entries as [|e entries IH]; intros acc w; simpl.
  - by rewrite app_nil_r, ilog_to_nil.
  - unfold mbind at 1, iprog_bind. rewrite iload_run_outcome, IH.
    by rewrite ilog_to_app, app_assoc, fmap_app.
Qed.

Lemma iload_all_insights_outcome runs_root entries w :
  iw_listdir w runs_root = Ok entries ->
  ExtractInteractiveSteps.load_all_insights runs_root w
    = (Ok (py_sorted String.ltb entry_name entries
             ≫= (fun e => (run_outcome runs_root e).1)),
       ilog_to (warn_interactive
                  <$> (py_sorted String.ltb entry_name entries
                         ≫= run_warnings runs_root)) w).
Proof.
  intros Hls.
  unfold ExtractInteractiveSteps.load_all_insights, mbind at 1, iprog_bind,
    ilistdir.
  rewrite Hls. apply (iload_runs_outcome runs_root _ [] w).
Qed.

Lemma iload_all_insights_raises runs_root e w :
  iw_listdir w runs_root = Raise e ->
  ExtractInteractiveSteps.load_all_insights runs_root w = (Raise e, w).
Proof.
  intros Hls.
  unfold ExtractInteractiveSteps.load_all_insights, mbind at 1, iprog_bind,
    ilistdir.
  by rewrite Hls.
Qed.

Lemma load_all_insights_warnings runs_root entries w :
  w_listdir w runs_root = Ok entries ->
  load_all_insights runs_root w
    = (Ok (py_sorted String.ltb entry_name entries
             ≫= (fun e => (run_outcome runs_root e).1)),
       log_to (warn_all
                 <$> (py_sorted String.ltb entry_name entries
                        ≫= run_warnings runs_root)) w).
Proof.
  intros Hls. rewrite (load_all_insights_outcome _ _ _ Hls). do 2 f_equal.
  induction (py_sorted String.ltb entry_name entries) as [|e l IH];
    csimpl; [done|].
  by rewrite fmap_app, run_outcome_warnings, IH.
Qed.


(** X18: the loaders of the two scripts agree: on worlds with the same
    listing of the runs directory they return the same records, or raise
    the same exception, and warn about the same insights files with the
    same exceptions, in the same order. *)
Theorem load_all_insights_scripts_agree
    (w : World) (iw : IWorld) (runs_root : string) :
  iw_listdir iw runs_root = w_listdir w runs_root ->
  exists r warnings,
    ExtractAllDatasets.load_all_insights runs_root w
      = (r, log_to (warn_all <$> warnings) w) /\
    ExtractInteractiveSteps.load_all_insights runs_root iw
      = (r, ilog_to (warn_interactive <$> warnings) iw).
Proof.
  intros Hsame. destruct (w_listdir w runs_root) as [entries|e] eqn:Hls.
  - eexists _, _. split.
    + by apply load_all_insights_warnings.
    + by apply iload_all_insights_outcome.
  - exists (Raise e), []. split.
    + by rewrite log_to_nil, (load_all_insights_listing_raises _ _ e).
    + by rewrite ilog_to_nil, (iload_all_insights_raises _ e).
Qed.

End InteractiveLoader.

Lemma load_all_insights_scripts_agree_witness :
  iw_listdir (iworld_at "/runs" listing_ok) "/runs"
    = w_listdir (world_of listing_ok) "/runs" /\
  exists r warnings,
    @ExtractAllDatasets.load_all_insights exact_floats "/runs"
        (world_of listing_ok)
      = (r, log_to (warn_all <$> warnings) (world_of listing_ok)) /\
    @ExtractInteractiveSteps.load_all_insights exact_floats "/runs"
        (iworld_at "/runs" listing_ok)
      = (r, ilog_to (warn_interactive <$> warnings)
              (iworld_at "/runs" listing_ok)).
Proof.
  split; [reflexivity|].
  apply (@load_all_insights_scripts_agree exact_floats). reflexivity.
Defined.

Section InteractiveMain.
Context `{FloatOps}.







End InteractiveMain.




Section ImageEncoder.
Context `{Encoders}.

(** X22: [image_to_base64] never raises and changes nothing but the
    console.  For a file it returns the encoding of its bytes; for a path
    that does not exist it returns the empty string and prints nothing; for
    a directory the read fails, a warning is printed and the empty string is
    returned. *)
Theorem image_to_base64_never_raises (img_path : string) (w : IWorld) :
  exists s lines,
    ExtractInteractiveSteps.image_to_base64 img_path w
      = (Ok s, ilog_to lines w) /\
    match iw_files w !! img_path with
    | Some (IImage bytes) => s = b64encode bytes /\ lines = []
    | Some (IJson doc) => s = b64encode (json_dumps doc) /\ lines = []
    | None =>
        s = "" /\
        lines = if bool_decide (img_path ∈ iw_dirs w)
                then [IWarnReadImage img_path IsADirectoryError] else []
    end.
Proof.
  unfold ExtractInteractiveSteps.image_to_base64.
  rewrite ibind_run. unfold ipath_exists. cbv beta iota.
  destruct (iw_files w !! img_path) as [[bytes|doc]|] eqn:Hfile.
  - rewrite (bool_decide_eq_true_2 (is_Some (Some (IImage bytes))))
      by (by eexists).
    rewrite orb_true_r. cbv beta iota delta [negb].
    unfold try_except. rewrite ibind_run. unfold iread_bytes at 1.
    rewrite Hfile. exists (b64encode bytes), [].
    by rewrite ilog_to_nil.
  - rewrite (bool_decide_eq_true_2 (is_Some (Some (IJson doc))))
      by (by eexists).
    rewrite orb_true_r. cbv beta iota delta [negb].
    unfold try_except. rewrite ibind_run. unfold iread_bytes at 1.
    rewrite Hfile. exists (b64encode (json_dumps doc)), [].
    by rewrite ilog_to_nil.
  - rewrite (bool_decide_eq_false_2 (is_Some None)) by (by intros [? ?]).
    rewrite orb_false_r.
    destruct (bool_decide (img_path ∈ iw_dirs w)) eqn:Hdir;
      cbv beta iota delta [negb].
    + unfold try_except. rewrite ibind_run. unfold iread_bytes at 1.
      rewrite Hfile, Hdir. cbv beta iota.
      rewrite ibind_run, iprint_run.
      by exists "", [IWarnReadImage img_path IsADirectoryError].
    + exists "", []. by rewrite ilog_to_nil.
Qed.

End ImageEncoder.
